(** * Bank-statement extraction pipeline: a shallow embedding

    The development embeds the core of
    [automatizacion-estados-de-cuenta/process_statements.py] and of its
    near-duplicate [debug.py]: the text normalizer, the rulebook matcher,
    the row merger, and the page-range / header detection of
    [find_transaction_tables].

    Conventions of the embedding.
    - A Python [str] is a list of Unicode code points ([pystr]).
    - A scalar that reaches the code is [None], the float [nan] that pandas
      uses for a missing cell, or a string ([pyval]).
    - A [pandas.Series] row is a finite map from column label to cell; a
      cell that is absent from the map reads as [nan], which is what pandas
      stores when it aligns frames with different columns.  The labels of a
      frame are a list and may repeat: [row[c]] under a repeated label is a
      Series, not a cell, and the merger raises where pandas does; the map
      keeps one cell under such a label, and the merger never reads it.
    - Exceptions are explicit: fallible code returns a [result].
    - [print] calls and the Excel writer are not modelled: the loop over
      the files is followed up to the frame that it hands to [to_excel].
    - The external libraries enter as parameters: the Unicode NFKD
      transformation, the numeric parser of [pandas.to_numeric], the page
      texts delivered by PyMuPDF and the tables delivered by Camelot. *)

From Stdlib Require Import ZArith NArith List String Ascii Bool Lia Sorted Permutation.
From stdpp Require Import base option list gmap.

Local Open Scope N_scope.

(** ** Python strings and scalars *)

Module Py.

Definition codepoint := N.
Definition pystr := list codepoint.

(** An ASCII literal of the source, as a sequence of code points. *)
Definition u (s : string) : pystr :=
  List.map N_of_ascii (list_ascii_of_string s).

Inductive pyval :=
| PyNone
| PyNaN
| PyStr (s : pystr).

(** [str(x)] *)
Definition py_str (x : pyval) : pystr :=
  match x with
  | PyNone => u "None"
  | PyNaN => u "nan"
  | PyStr s => s
  end.

Inductive exn :=
| TypeError
| KeyError
| IndexError
| ValueError
| InvalidIndexError
| OtherError (tag : nat).

Inductive result (A : Type) :=
| Ok (a : A)
| Raise (e : exn).
Arguments Ok {A} a.
Arguments Raise {A} e.

Definition bind {A B} (m : result A) (k : A -> result B) : result B :=
  match m with
  | Ok a => k a
  | Raise e => Raise e
  end.

Definition is_ascii (c : codepoint) : bool := c <? 128.

(** [s.encode('ASCII', 'ignore').decode('utf-8')]: the code points that
    have no ASCII encoding are dropped, the others come back unchanged. *)
Definition encode_ascii_ignore (s : pystr) : pystr := List.filter is_ascii s.

(** [str.lower] on a code point below 128: only [A]..[Z] change. *)
Definition lower_cp (c : codepoint) : codepoint :=
  if (65 <=? c) && (c <=? 90) then c + 32 else c.

(** [s.lower()], for the ASCII-only strings the source applies it to. *)
Definition lower (s : pystr) : pystr := List.map lower_cp s.

(** [c.isspace()]: the white space of [str.split()] and [str.strip()]. *)
Definition isspace (c : codepoint) : bool :=
  ((9 <=? c) && (c <=? 13)) || ((28 <=? c) && (c <=? 32))
  || (c =? 133) || (c =? 160) || (c =? 5760)
  || ((8192 <=? c) && (c <=? 8202))
  || (c =? 8232) || (c =? 8233) || (c =? 8239) || (c =? 8287)
  || (c =? 12288).

(** [s.split()] with [cur] the word being read. *)
Fixpoint split_ws_from (cur : pystr) (s : pystr) : list pystr :=
  match s with
  | [] => match cur with [] => [] | _ => [cur] end
  | c :: rest =>
      if isspace c then
        match cur with
        | [] => split_ws_from [] rest
        | _ => cur :: split_ws_from [] rest
        end
      else split_ws_from (cur ++ [c]) rest
  end.

Definition split_ws (s : pystr) : list pystr := split_ws_from [] s.

(** [sep.join(words)] *)
Fixpoint join (sep : pystr) (words : list pystr) : pystr :=
  match words with
  | [] => []
  | [w] => w
  | w :: rest => w ++ sep ++ join sep rest
  end.

(** [s.split(',')]: never empty, [''.split(',') = ['']]. *)
Fixpoint split_on_from (sep : codepoint) (cur : pystr) (s : pystr) : list pystr :=
  match s with
  | [] => [cur]
  | c :: rest =>
      if c =? sep then cur :: split_on_from sep [] rest
      else split_on_from sep (cur ++ [c]) rest
  end.

Definition split_on (sep : codepoint) (s : pystr) : list pystr :=
  split_on_from sep [] s.

Definition comma : codepoint := 44.
Definition space : pystr := [32].

Fixpoint lstrip (s : pystr) : pystr :=
  match s with
  | [] => []
  | c :: rest => if isspace c then lstrip rest else s
  end.

(** [s.strip()] *)
Definition strip (s : pystr) : pystr := rev (lstrip (rev (lstrip s))).

Definition str_eqb (a b : pystr) : bool := bool_decide (a = b).

Fixpoint startswith (p s : pystr) : bool :=
  match p, s with
  | [], _ => true
  | _ :: _, [] => false
  | a :: p', b :: s' => (a =? b) && startswith p' s'
  end.

(** [needle in haystack] on strings *)
Fixpoint contains (needle haystack : pystr) : bool :=
  startswith needle haystack ||
  match haystack with
  | [] => false
  | _ :: rest => contains needle rest
  end.

(** [x in xs] on a list of strings *)
Definition str_in (x : pystr) (xs : list pystr) : bool :=
  existsb (str_eqb x) xs.

End Py.
Import Py.

Notation "'let*' x ':=' m 'in' k" := (bind m (fun x => k))
  (at level 10, x pattern, m at level 100, k at level 200).

(** ** The part of pandas the scripts use *)

Module Pandas.

Definition label := pystr.

(** A row as [iterrows] yields it. *)
Abbreviation Series := (gmap label pyval).

(** [row[c]] for a label of the frame: a missing cell is [nan]. *)
Definition series_get (row : Series) (c : label) : pyval :=
  default PyNaN (row !! c).

(** [row[c] = v] *)
Definition series_set (row : Series) (c : label) (v : pyval) : Series :=
  <[c := v]> row.

(** [pd.notna(x)] on a scalar *)
Definition notna (x : pyval) : bool :=
  match x with
  | PyStr _ => true
  | PyNone | PyNaN => false
  end.

Record DataFrame := {
  columns : list label;
  rows : list Series
}.

(** [pd.DataFrame()] *)
Definition empty_frame : DataFrame := {| columns := []; rows := [] |}.

(** The label [c] occurs more than once in [index]. *)
Definition repeated (c : label) (index : list label) : bool :=
  (1 <? length (List.filter (str_eqb c) index))%nat.

(** [not index.is_unique] *)
Fixpoint has_repeated_label (index : list label) : bool :=
  match index with
  | [] => false
  | c :: rest => str_in c rest || has_repeated_label rest
  end.

(** What [row[c]] gives for a row with the labels [index]: the cell, or
    the Series of the cells under a repeated label. *)
Inductive item :=
| Scalar (x : pyval)
| SubSeries.

Definition series_getitem (index : list label) (row : Series) (c : label) : item :=
  if repeated c index then SubSeries else Scalar (series_get row c).

(** A frame as Camelot delivers it ([table.df]): a grid of cells. *)
Definition RawTable := list (list pyval).

(** [df.empty]: no rows or no columns. *)
Definition df_empty (df : RawTable) : bool :=
  match df with
  | [] => true
  | [] :: _ => true
  | _ => false
  end.

(** [x.fillna('')] on a cell *)
Definition fillna_empty (x : pyval) : pyval :=
  if notna x then x else PyStr [].

(** A frame re-based at its header row, cells still in grid order. *)
Record Table := {
  labels : list label;
  cells : list (list pyval)
}.

(** The row of a table as a map; under a repeated label it keeps the
    first cell. *)
Definition row_of (ls : list label) (cs : list pyval) : Series :=
  list_to_map (zip ls cs).

Fixpoint union_labels (acc : list label) (ls : list label) : list label :=
  match ls with
  | [] => acc
  | l :: rest =>
      if str_in l acc then union_labels acc rest
      else union_labels (acc ++ [l]) rest
  end.

(** Every table has the labels of the first one, in the same order. *)
Definition same_labels (tables : list Table) : bool :=
  match tables with
  | [] => true
  | t :: rest => forallb (fun t' => bool_decide (labels t' = labels t)) rest
  end.

(** The frame that [pd.concat(tables, ignore_index=True)] builds: rows in
    order, cells aligned by label.  Tables with the same labels keep them
    as they are, repeated ones included; otherwise the columns are the
    union of the labels in order of first appearance. *)
Definition concat (tables : list Table) : DataFrame :=
  {| columns :=
       if same_labels tables then
         match tables with
         | [] => []
         | t :: _ => labels t
         end
       else fold_left union_labels (List.map labels tables) [];
     rows := flat_map (fun t => List.map (row_of (labels t)) (cells t)) tables |}.

(** The call itself: tables whose labels differ are re-indexed on the
    union, which pandas refuses for a table with a repeated label. *)
Definition pd_concat (tables : list Table) : result DataFrame :=
  if same_labels tables
     || forallb (fun t => negb (has_repeated_label (labels t))) tables
  then Ok (concat tables)
  else Raise InvalidIndexError.

End Pandas.
Import Pandas.

(** ** process_statements.py *)

Module ProcessStatements.

Definition dia : label := u "dia".
Definition concepto : label := u "concepto".

(** A page of an opened document: [page.get_text("text")] gives its text
    or raises.  [fitz_open] is [fitz.open(pdf_path)] followed by the
    enumeration of the pages; [camelot_read_pdf s e] is
    [camelot.read_pdf(pdf_path, pages=f"{s}-{e}", flavor='stream')]. *)
Record Pdf := {
  fitz_open : result (list (result pystr));
  camelot_read_pdf : Z -> Z -> result (list RawTable)
}.

(** A row of the rulebook, which has the columns [Priority], [Keywords]
    and [Output Template]. *)
Record Rule := {
  Priority : Z;
  Keywords : pyval;
  Output_Template : pyval
}.

Section Code.

(** [unicodedata.normalize('NFKD', s)] *)
Variable nfkd : pystr -> pystr.

(** [pd.notna(pd.to_numeric(s, errors='coerce'))] on a string [s] *)
Variable to_numeric_notna : pystr -> bool.

Definition normalize_text (text : pyval) : pystr :=
  match text with
  | PyNone => []
  | _ =>
      let nfkd_form := nfkd (py_str text) in
      let only_ascii := lower (encode_ascii_ignore nfkd_form) in
      join space (split_ws only_ascii)
  end.

(** The test of line 26: every keyword, normalized, occurs in the
    normalized concepto. *)
Definition all_keywords_in (keywords : list pystr) (normalized_concepto : pystr) : bool :=
  forallb (fun kw => contains (normalize_text (PyStr kw)) normalized_concepto) keywords.

(** The [for] loop of [apply_rules]: [Some t] when it returns [t],
    [None] when it runs to its end. *)
Fixpoint apply_rules_loop (normalized_concepto : pystr) (rules_df : list Rule)
  : option pyval :=
  match rules_df with
  | [] => None
  | rule :: rest =>
      let keywords := split_on comma (py_str (Keywords rule)) in
      if all_keywords_in keywords normalized_concepto
      then Some (PyStr (py_str (Output_Template rule)))
      else apply_rules_loop normalized_concepto rest
  end.

Definition apply_rules (concepto : pyval) (rules_df : list Rule) : pyval :=
  let normalized_concepto := normalize_text concepto in
  match apply_rules_loop normalized_concepto rules_df with
  | Some template => template
  | None => concepto
  end.

(** [pd.notna(pd.to_numeric(x, errors='coerce'))]: a missing cell stays
    missing. *)
Definition is_new_transaction (x : pyval) : bool :=
  match x with
  | PyStr s => to_numeric_notna s
  | PyNone | PyNaN => false
  end.

(** [processed_rows[i]['concepto'] += s]: [+] of a float and a [str]
    raises. *)
Definition iadd_concepto (processed_rows : list Series) (i : Z) (s : pystr)
  : result (list Series) :=
  match processed_rows !! Z.to_nat i with
  | None => Raise IndexError
  | Some tx =>
      match series_get tx concepto with
      | PyStr old =>
          Ok (<[Z.to_nat i := series_set tx concepto (PyStr (old ++ s))]> processed_rows)
      | PyNone | PyNaN => Raise TypeError
      end
  end.

(** The loop of lines 39-46 over rows with the labels [index].  Under a
    repeated [dia] label [is_new_transaction] is a Series and the [if] of
    line 41 raises; under a repeated [concepto] label [pd.notna] gives a
    Series and the [and] of line 45 raises, once its left operand holds. *)
Fixpoint merge_loop (index : list label) (todo : list Series)
  (processed_rows : list Series) (current_transaction_index : Z)
  : result (list Series) :=
  match todo with
  | [] => Ok processed_rows
  | row :: rest =>
      match series_getitem index row dia with
      | SubSeries => Raise ValueError
      | Scalar d =>
          if is_new_transaction d then
            let processed_rows := processed_rows ++ [row] in
            merge_loop index rest processed_rows (Z.of_nat (length processed_rows) - 1)
          else if (current_transaction_index =? -1)%Z then
            merge_loop index rest processed_rows current_transaction_index
          else
            match series_getitem index row concepto with
            | SubSeries => Raise ValueError
            | Scalar c =>
                if notna c && negb (str_eqb (strip (py_str c)) []) then
                  let* processed_rows :=
                    iadd_concepto processed_rows current_transaction_index
                      (space ++ py_str c) in
                  merge_loop index rest processed_rows current_transaction_index
                else merge_loop index rest processed_rows current_transaction_index
            end
      end
  end.

(** Line 48: [pd.DataFrame(processed_rows)] aligns the rows on their
    labels and raises when a label is repeated. *)
Definition merge_concepto_lines (df : DataFrame) : result DataFrame :=
  if negb (str_in dia (columns df)) || negb (str_in concepto (columns df))
  then Ok df
  else
    let* processed_rows := merge_loop (columns df) (rows df) [] (-1) in
    match processed_rows with
    | [] => Ok empty_frame
    | _ =>
        if has_repeated_label (columns df) then Raise InvalidIndexError
        else Ok {| columns := columns df; rows := processed_rows |}
    end.

Definition required_headers : list pystr :=
  List.map (fun h => normalize_text (PyStr h))
    [u "dia"; u "concepto"; u "cargos"; u "abonos"; u "saldo"].
Definition start_marker : pystr := normalize_text (PyStr (u "saldo inicial")).
Definition end_marker : pystr := normalize_text (PyStr (u "saldo minimo requerido")).

(** The page loop of lines 60-65. *)
Fixpoint scan_pages (pages : list (result pystr)) (page_num : Z)
  (start_page end_page : option Z) : result (option Z * option Z) :=
  match pages with
  | [] => Ok (start_page, end_page)
  | page :: rest =>
      let* raw := page in
      let text := normalize_text (PyStr raw) in
      let start_page :=
        match start_page with
        | None => if contains start_marker text then Some page_num else None
        | Some _ => start_page
        end in
      let end_page := if contains end_marker text then Some page_num else end_page in
      scan_pages rest (page_num + 1) start_page end_page
  end.

(** Lines 87-88 for one candidate row. *)
Definition is_header_row (row : list pyval) : bool :=
  let row_as_string :=
    join space (List.map (fun cell => normalize_text (fillna_empty cell)) row) in
  forallb (fun req_header => contains req_header row_as_string) required_headers.

(** The loop of lines 86-91 over the candidates from index [i] on:
    the index of the first header row, [-1] when there is none. *)
Fixpoint header_search (i : Z) (candidates : list (list pyval)) : Z :=
  match candidates with
  | [] => -1
  | row :: rest => if is_header_row row then i else header_search (i + 1) rest
  end.

Definition header_found_at_row (df : RawTable) : Z :=
  header_search 0 (firstn (Nat.min 5 (length df)) df).

(** Lines 92-96 for one table: the re-based frame, if a header was found. *)
Definition rebase (df : RawTable) : option Table :=
  let h := header_found_at_row df in
  if (h =? -1)%Z then None
  else
    let header := nth (Z.to_nat h) df [] in
    Some {| labels := List.map normalize_text header;
            cells := skipn (Z.to_nat (h + 1)) df |}.

(** The table loop of lines 82-96. *)
Fixpoint collect_tables (tables : list RawTable) (final_tables : list Table)
  : list Table :=
  match tables with
  | [] => final_tables
  | df :: rest =>
      if df_empty df then collect_tables rest final_tables
      else
        match rebase df with
        | Some t => collect_tables rest (final_tables ++ [t])
        | None => collect_tables rest final_tables
        end
  end.

(** The body of the [try] of lines 57-66: the two page numbers after
    the scan, or the exception that the [except] clause receives. *)
Definition page_range (pdf : Pdf) : result (option Z * option Z) :=
  let* doc := fitz_open pdf in
  scan_pages doc 1 None None.

Definition valid_range (r : option Z * option Z) : option (Z * Z) :=
  match r with
  | (Some start_page, Some end_page) =>
      if (end_page <? start_page)%Z then None else Some (start_page, end_page)
  | _ => None
  end.

Definition find_transaction_tables (pdf : Pdf) : list Table :=
  match page_range pdf with
  | Raise _ => []
  | Ok r =>
      match valid_range r with
      | None => []
      | Some (start_page, end_page) =>
          match camelot_read_pdf pdf start_page end_page with
          | Raise _ => []
          | Ok tables => collect_tables tables []
          end
      end
  end.

(** [df['concepto'] = df['concepto'].apply(f)] *)
Definition apply_to_concepto (f : pyval -> pyval) (df : DataFrame) : result DataFrame :=
  if str_in concepto (columns df) then
    Ok {| columns := columns df;
          rows := List.map (fun row => series_set row concepto (f (series_get row concepto)))
                    (rows df) |}
  else Raise KeyError.

(** The loop of lines 125-139 over the opened files, up to the call of
    [to_excel]: [sheets] are the frames that reach the writer, in order.
    The writer and the sheet names are not modelled. *)
Fixpoint process_files (rules_df : list Rule) (pdf_files : list Pdf)
  (sheets : list DataFrame) : result (list DataFrame) :=
  match pdf_files with
  | [] => Ok sheets
  | pdf :: rest =>
      match find_transaction_tables pdf with
      | [] => process_files rules_df rest sheets
      | tables_from_pdf =>
          let* pdf_df := pd_concat tables_from_pdf in
          let* cleaned_df := merge_concepto_lines pdf_df in
          let* cleaned_df :=
            apply_to_concepto (fun c => apply_rules c rules_df) cleaned_df in
          process_files rules_df rest (sheets ++ [cleaned_df])
      end
  end.

End Code.

End ProcessStatements.

(** ** debug.py *)

Module Debug.

Definition dia : label := u "dia".
Definition concepto : label := u "concepto".

Section Code.

Variable nfkd : pystr -> pystr.
Variable to_numeric_notna : pystr -> bool.

Definition normalize_text (text : pyval) : pystr :=
  match text with
  | PyNone => []
  | _ =>
      let nfkd_form := nfkd (py_str text) in
      let only_ascii := lower (encode_ascii_ignore nfkd_form) in
      join space (split_ws only_ascii)
  end.

Definition is_new_transaction (x : pyval) : bool :=
  match x with
  | PyStr s => to_numeric_notna s
  | PyNone | PyNaN => false
  end.

Definition iadd_concepto (processed_rows : list Series) (i : Z) (s : pystr)
  : result (list Series) :=
  match processed_rows !! Z.to_nat i with
  | None => Raise IndexError
  | Some tx =>
      match series_get tx concepto with
      | PyStr old =>
          Ok (<[Z.to_nat i := series_set tx concepto (PyStr (old ++ s))]> processed_rows)
      | PyNone | PyNaN => Raise TypeError
      end
  end.

(** The loop of lines 25-36; a repeated [dia] label raises at line 31, a
    repeated [concepto] label at line 35. *)
Fixpoint merge_loop (index : list label) (todo : list Series)
  (processed_rows : list Series) (current_transaction_index : Z)
  : result (list Series) :=
  match todo with
  | [] => Ok processed_rows
  | row :: rest =>
      match series_getitem index row dia with
      | SubSeries => Raise ValueError
      | Scalar d =>
          let is_new := is_new_transaction d in
          if is_new then
            let processed_rows := processed_rows ++ [row] in
            merge_loop index rest processed_rows (Z.of_nat (length processed_rows) - 1)
          else if (current_transaction_index =? -1)%Z then
            merge_loop index rest processed_rows current_transaction_index
          else
            match series_getitem index row concepto with
            | SubSeries => Raise ValueError
            | Scalar c =>
                if notna c && negb (str_eqb (strip (py_str c)) []) then
                  let* processed_rows :=
                    iadd_concepto processed_rows current_transaction_index
                      (space ++ py_str c) in
                  merge_loop index rest processed_rows current_transaction_index
                else merge_loop index rest processed_rows current_transaction_index
            end
      end
  end.

(** Line 41 raises when a label is repeated. *)
Definition merge_concepto_lines (df : DataFrame) : result DataFrame :=
  if negb (str_in dia (columns df)) || negb (str_in concepto (columns df))
  then Ok df
  else
    let* processed_rows := merge_loop (columns df) (rows df) [] (-1) in
    match processed_rows with
    | [] => Ok empty_frame
    | _ =>
        if has_repeated_label (columns df) then Raise InvalidIndexError
        else Ok {| columns := columns df; rows := processed_rows |}
    end.

Definition required_headers : list pystr :=
  List.map (fun h => normalize_text (PyStr h))
    [u "dia"; u "concepto"; u "cargos"; u "abonos"; u "saldo"].
Definition start_marker : pystr := normalize_text (PyStr (u "saldo inicial")).
Definition end_marker : pystr := normalize_text (PyStr (u "saldo minimo requerido")).

(** The page loop of lines 53-58. *)
Fixpoint scan_pages (pages : list (result pystr)) (page_num : Z)
  (start_page end_page : option Z) : result (option Z * option Z) :=
  match pages with
  | [] => Ok (start_page, end_page)
  | page :: rest =>
      let* raw := page in
      let text := normalize_text (PyStr raw) in
      let start_page :=
        match start_page with
        | None => if contains start_marker text then Some page_num else None
        | Some _ => start_page
        end in
      let end_page := if contains end_marker text then Some page_num else end_page in
      scan_pages rest (page_num + 1) start_page end_page
  end.

(** Lines 85-86 for one candidate row. *)
Definition is_header_row (row : list pyval) : bool :=
  let row_as_string :=
    join space (List.map (fun cell => normalize_text (fillna_empty cell)) row) in
  forallb (fun req_header => contains req_header row_as_string) required_headers.

(** The loop of lines 84-89. *)
Fixpoint header_search (i : Z) (candidates : list (list pyval)) : Z :=
  match candidates with
  | [] => -1
  | row :: rest => if is_header_row row then i else header_search (i + 1) rest
  end.

Definition header_found_at_row (df : RawTable) : Z :=
  header_search 0 (firstn (Nat.min 5 (length df)) df).

(** Lines 91-95 for one table. *)
Definition rebase (df : RawTable) : option Table :=
  let h := header_found_at_row df in
  if (h =? -1)%Z then None
  else
    let header := nth (Z.to_nat h) df [] in
    Some {| labels := List.map normalize_text header;
            cells := skipn (Z.to_nat (h + 1)) df |}.

(** The table loop of lines 79-95. *)
Fixpoint collect_tables (tables : list RawTable) (final_tables : list Table)
  : list Table :=
  match tables with
  | [] => final_tables
  | df :: rest =>
      if df_empty df then collect_tables rest final_tables
      else
        match rebase df with
        | Some t => collect_tables rest (final_tables ++ [t])
        | None => collect_tables rest final_tables
        end
  end.

(** The body of the [try] of lines 50-59. *)
Definition page_range (pdf : ProcessStatements.Pdf) : result (option Z * option Z) :=
  let* doc := ProcessStatements.fitz_open pdf in
  scan_pages doc 1 None None.

Definition valid_range (r : option Z * option Z) : option (Z * Z) :=
  match r with
  | (Some start_page, Some end_page) =>
      if (end_page <? start_page)%Z then None else Some (start_page, end_page)
  | _ => None
  end.

Definition find_transaction_tables (pdf : ProcessStatements.Pdf) : list Table :=
  match page_range pdf with
  | Raise _ => []
  | Ok r =>
      match valid_range r with
      | None => []
      | Some (start_page, end_page) =>
          match ProcessStatements.camelot_read_pdf pdf start_page end_page with
          | Raise _ => []
          | Ok tables => collect_tables tables []
          end
      end
  end.

End Code.

End Debug.

(** ** Instances of the external parameters, for concrete runs *)

(** A fragment of NFKD: the compatibility decomposition of a few Latin
    letters and of the no-break space; every other code point is kept. *)
Definition nfkd_cp (c : codepoint) : pystr :=
  if c =? 201 then [69; 769]          (* E acute *)
  else if c =? 233 then [101; 769]    (* e acute *)
  else if c =? 237 then [105; 769]    (* i acute *)
  else if c =? 241 then [110; 771]    (* n tilde *)
  else if c =? 160 then [32]          (* no-break space *)
  else [c].

Definition nfkd_latin (s : pystr) : pystr := flat_map nfkd_cp s.

(** A numeric parser that accepts the non-empty strings of decimal digits. *)
Definition is_digit (c : codepoint) : bool := (48 <=? c) && (c <=? 57).

Definition digits_only (s : pystr) : bool :=
  match s with
  | [] => false
  | _ => forallb is_digit s
  end.

Module PS := ProcessStatements.

(** * Vocabulary of the statements *)

Section Vocabulary.

Variable nfkd : pystr -> pystr.
Variable to_numeric_notna : pystr -> bool.

Local Abbreviation normalize_text := (PS.normalize_text nfkd).
Local Abbreviation is_new_transaction := (PS.is_new_transaction to_numeric_notna).

Definition nospace (w : pystr) : Prop := Forall (fun c => isspace c = false) w.

Definition is_word (w : pystr) : Prop := w <> [] /\ nospace w.

(** [needle] occurs in [haystack] as a contiguous block. *)
Definition substring (needle haystack : pystr) : Prop :=
  exists before after, haystack = before ++ needle ++ after.

Definition is_upper (c : codepoint) : Prop := 65 <= c <= 90.

(** The comma-separated keywords of a rule. *)
Definition rule_keywords (r : PS.Rule) : list pystr :=
  split_on comma (py_str (PS.Keywords r)).

(** Every keyword of [r], normalized on its own, occurs in the normalized
    concepto. *)
Definition rule_matches (concepto : pyval) (r : PS.Rule) : Prop :=
  forall kw, In kw (rule_keywords r) ->
    substring (normalize_text (PyStr kw)) (normalize_text concepto).

Definition by_priority (a b : PS.Rule) : Prop := (PS.Priority a <= PS.Priority b)%Z.

(** The page text, once normalized, contains the marker. *)
Definition has_start (text : pystr) : bool :=
  contains (PS.start_marker nfkd) (PS.normalize_text nfkd (PyStr text)).

Definition has_end (text : pystr) : bool :=
  contains (PS.end_marker nfkd) (PS.normalize_text nfkd (PyStr text)).

(** [r] is the number of the first page that satisfies [P], pages being
    numbered from [k]; [None] when no page does. *)
Definition first_page (P : pystr -> bool) (texts : list pystr) (k : Z)
  (r : option Z) : Prop :=
  match r with
  | Some p =>
      exists i t, p = (k + Z.of_nat i)%Z /\ texts !! i = Some t /\ P t = true
        /\ forall j t', (j < i)%nat -> texts !! j = Some t' -> P t' = false
  | None => Forall (fun t => P t = false) texts
  end.

(** The same for the last page that satisfies [P]. *)
Definition last_page (P : pystr -> bool) (texts : list pystr) (k : Z)
  (r : option Z) : Prop :=
  match r with
  | Some p =>
      exists i t, p = (k + Z.of_nat i)%Z /\ texts !! i = Some t /\ P t = true
        /\ forall j t', (i < j)%nat -> texts !! j = Some t' -> P t' = false
  | None => Forall (fun t => P t = false) texts
  end.

Definition readable (texts : list pystr) (camelot : Z -> Z -> result (list RawTable))
  : PS.Pdf :=
  {| PS.fitz_open := Ok (List.map Ok texts); PS.camelot_read_pdf := camelot |}.

Definition required_labels : list pystr :=
  [u "dia"; u "concepto"; u "cargos"; u "abonos"; u "saldo"].

(** The haystack of a candidate row: its cells, missing ones as [''],
    normalized and joined with single spaces. *)
Definition haystack (row : list pyval) : pystr :=
  join space (List.map (fun cell => normalize_text (fillna_empty cell)) row).

(** A row starts a transaction: its [dia] parses as a number. *)
Definition starts_transaction (row : Series) : bool :=
  is_new_transaction (series_get row PS.dia).

(** A row has text to append: its [concepto] is present and not blank. *)
Definition has_text (row : Series) : bool :=
  notna (series_get row PS.concepto)
  && negb (str_eqb (strip (py_str (series_get row PS.concepto))) []).

(** [o] is [r] except possibly at [concepto]. *)
Definition same_but_concepto (o r : Series) : Prop :=
  forall c, c <> PS.concepto -> o !! c = r !! c.

Definition ascii_str (s : pystr) : bool := forallb is_ascii s.

Definition ascii_cell (x : pyval) : bool := ascii_str (py_str x).

Definition ascii_table (df : RawTable) : bool := forallb (forallb ascii_cell) df.

Definition ascii_page (page : result pystr) : bool :=
  match page with
  | Ok text => ascii_str text
  | Raise _ => true
  end.

Definition ascii_rule (r : PS.Rule) : bool := ascii_cell (PS.Keywords r).

(** The continuation [row] appended to the transaction [tx]. *)
Definition append_text (tx row : Series) : Series :=
  match series_get tx PS.concepto with
  | PyStr old =>
      series_set tx PS.concepto
        (PyStr (old ++ space ++ py_str (series_get row PS.concepto)))
  | PyNone | PyNaN => tx
  end.

(** A transaction after the continuation rows that follow it: those with
    a text are appended in order, the others leave it as it is. *)
Definition absorb (tx : Series) (conts : list Series) : Series :=
  fold_left (fun tx row => if has_text row then append_text tx row else tx) conts tx.

(** A run of rows: one row that starts a transaction and the rows up to
    the next such row. *)
Definition is_run (g : Series * list Series) : Prop :=
  starts_transaction (fst g) = true
  /\ Forall (fun r => starts_transaction r = false) (snd g).

Definition run_rows (g : Series * list Series) : list Series := fst g :: snd g.

(** The run has a text to extend, or nothing to append. *)
Definition mergeable (g : Series * list Series) : Prop :=
  notna (series_get (fst g) PS.concepto) = true
  \/ Forall (fun r => has_text r = false) (snd g).

(** A file contributes a sheet: it yields at least one table. *)
Definition yields_tables (pdf : PS.Pdf) : bool :=
  match PS.find_transaction_tables nfkd pdf with
  | [] => false
  | _ => true
  end.

(** [kws] are the pieces of [s] between its commas. *)
Definition comma_separated (s : pystr) (kws : list pystr) : Prop :=
  kws <> [] /\ Forall (fun kw => ~ In comma kw) kws /\ join [comma] kws = s.

End Vocabulary.

(** * Inputs of the concrete runs *)

(** A raw table whose header is one cell. *)
Definition one_cell_header : RawTable :=
  [ [PyStr (u "Dia Concepto Cargos Abonos Saldo")];
    [PyStr (u "1 PAGO A 100.00 900.00")];
    [PyStr (u "PROVEEDOR X")] ].

Definition one_cell_table : Table :=
  {| labels := [u "dia concepto cargos abonos saldo"];
     cells := [ [PyStr (u "1 PAGO A 100.00 900.00")];
                [PyStr (u "PROVEEDOR X")] ] |}.

(** Two raw tables of one document: in the first the extractor put
    "Concepto" and "Cargos" in one header cell, in the second each
    label has its own cell and the first data row continues the
    transaction of the first table. *)
Definition table_joined_header : RawTable :=
  [ [PyStr (u "Dia"); PyStr (u "Concepto Cargos"); PyStr (u "Abonos"); PyStr (u "Saldo")];
    [PyStr (u "1"); PyStr (u "PAGO A 100.00"); PyStr (u ""); PyStr (u "900.00")] ].

Definition table_exact_header : RawTable :=
  [ [PyStr (u "Dia"); PyStr (u "Concepto"); PyStr (u "Cargos");
     PyStr (u "Abonos"); PyStr (u "Saldo")];
    [PyStr (u ""); PyStr (u "PROVEEDOR X"); PyStr (u ""); PyStr (u ""); PyStr (u "")] ].

Definition statement_two_tables : PS.Pdf :=
  {| PS.fitz_open :=
       Ok [Ok (u "Saldo inicial 1,000.00"); Ok (u "Saldo minimo requerido 0.00")];
     PS.camelot_read_pdf := fun _ _ => Ok [table_joined_header; table_exact_header] |}.

Definition frame_two_tables : DataFrame :=
  {| columns := [u "dia"; u "concepto cargos"; u "abonos"; u "saldo";
                 u "concepto"; u "cargos"];
     rows := [ {[ u "dia" := PyStr (u "1");
                  u "concepto cargos" := PyStr (u "PAGO A 100.00");
                  u "abonos" := PyStr (u "");
                  u "saldo" := PyStr (u "900.00") ]};
               {[ u "dia" := PyStr (u "");
                  u "concepto" := PyStr (u "PROVEEDOR X");
                  u "cargos" := PyStr (u "");
                  u "abonos" := PyStr (u "");
                  u "saldo" := PyStr (u "") ]} ] |}.

Definition statement_rows : DataFrame :=
  {| columns := [u "dia"; u "concepto"];
     rows := [ {[ u "dia" := PyStr (u "1"); u "concepto" := PyStr (u "PAGO A") ]};
               {[ u "dia" := PyStr (u ""); u "concepto" := PyStr (u "PROVEEDOR X") ]};
               {[ u "dia" := PyStr (u "2"); u "concepto" := PyStr (u "DEPOSITO") ]} ] |}.

Definition statement_merged : DataFrame :=
  {| columns := [u "dia"; u "concepto"];
     rows := [ {[ u "dia" := PyStr (u "1");
                  u "concepto" := PyStr (u "PAGO A PROVEEDOR X") ]};
               {[ u "dia" := PyStr (u "2"); u "concepto" := PyStr (u "DEPOSITO") ]} ] |}.

(** The same three rows with the five columns of a statement. *)
Definition ledger_rows : DataFrame :=
  {| columns := [u "dia"; u "concepto"; u "cargos"; u "abonos"; u "saldo"];
     rows := [ {[ u "dia" := PyStr (u "1"); u "concepto" := PyStr (u "PAGO A");
                  u "cargos" := PyStr (u "100.00"); u "abonos" := PyStr (u "");
                  u "saldo" := PyStr (u "900.00") ]};
               {[ u "dia" := PyStr (u ""); u "concepto" := PyStr (u "PROVEEDOR X");
                  u "cargos" := PyStr (u ""); u "abonos" := PyStr (u "");
                  u "saldo" := PyStr (u "") ]};
               {[ u "dia" := PyStr (u "2"); u "concepto" := PyStr (u "DEPOSITO");
                  u "cargos" := PyStr (u ""); u "abonos" := PyStr (u "50.00");
                  u "saldo" := PyStr (u "950.00") ]} ] |}.

Definition ledger_merged : DataFrame :=
  {| columns := [u "dia"; u "concepto"; u "cargos"; u "abonos"; u "saldo"];
     rows := [ {[ u "dia" := PyStr (u "1");
                  u "concepto" := PyStr (u "PAGO A PROVEEDOR X");
                  u "cargos" := PyStr (u "100.00"); u "abonos" := PyStr (u "");
                  u "saldo" := PyStr (u "900.00") ]};
               {[ u "dia" := PyStr (u "2"); u "concepto" := PyStr (u "DEPOSITO");
                  u "cargos" := PyStr (u ""); u "abonos" := PyStr (u "50.00");
                  u "saldo" := PyStr (u "950.00") ]} ] |}.

Definition rulebook : list PS.Rule :=
  [ {| PS.Priority := 1; PS.Keywords := PyStr (u "pago,proveedor");
       PS.Output_Template := PyStr (u "Pago a Proveedor") |};
    {| PS.Priority := 2; PS.Keywords := PyStr (u "pago");
       PS.Output_Template := PyStr (u "Pago Generico") |} ].

Definition header_in_third_row : RawTable :=
  [ [PyStr (u "BANCO"); PyStr (u ""); PyStr (u ""); PyStr (u ""); PyStr (u "")];
    [PyStr (u "Estado de cuenta"); PyStr (u ""); PyStr (u ""); PyStr (u ""); PyStr (u "")];
    [PyStr ([68; 237; 97]); PyStr (u "CONCEPTO"); PyStr (u "Cargos");
     PyStr (u "Abonos"); PyStr (u "Saldo")];
    [PyStr (u "1"); PyStr (u "PAGO A"); PyStr (u "100.00"); PyStr (u ""); PyStr (u "900.00")];
    [PyStr (u ""); PyStr (u "PROVEEDOR X"); PyStr (u ""); PyStr (u ""); PyStr (u "")] ].

Definition six_pages : list pystr :=
  [ u "Portada";
    u "Resumen";
    u "SALDO  INICIAL 1,000.00 ... saldo minimo requerido 0.00";
    u "movimientos";
    [83; 97; 108; 100; 111; 32; 109; 237; 110; 105; 109; 111; 32] ++ u "REQUERIDO";
    u "fin" ].

Definition catch_all : PS.Rule :=
  {| PS.Priority := 3; PS.Keywords := PyStr [];
     PS.Output_Template := PyStr (u "Otros") |}.

Definition rulebook_with_catch_all : list PS.Rule := rulebook ++ [catch_all].

(** Five rows: a continuation row before the first transaction, a
    transaction with one continuation text and one blank continuation
    row, and a second transaction. *)
Definition row_orphan : Series :=
  {[ u "dia" := PyStr (u ""); u "concepto" := PyStr (u "ORPHAN") ]}.
Definition row_pago : Series :=
  {[ u "dia" := PyStr (u "1"); u "concepto" := PyStr (u "PAGO A") ]}.
Definition row_proveedor : Series :=
  {[ u "dia" := PyStr (u ""); u "concepto" := PyStr (u "PROVEEDOR X") ]}.
Definition row_blank : Series :=
  {[ u "dia" := PyStr (u ""); u "concepto" := PyStr ([32; 160; 9]) ]}.
Definition row_deposito : Series :=
  {[ u "dia" := PyStr (u "2"); u "concepto" := PyStr (u "DEPOSITO") ]}.

Definition statement_with_orphan : DataFrame :=
  {| columns := [u "dia"; u "concepto"];
     rows := [row_orphan; row_pago; row_proveedor; row_blank; row_deposito] |}.

(** Documents: one with the table [header_in_third_row], one without
    markers, one with the table [one_cell_header]. *)
Definition statement_one_table : PS.Pdf :=
  {| PS.fitz_open :=
       Ok [Ok (u "Saldo inicial 1,000.00"); Ok (u "Saldo minimo requerido 0.00")];
     PS.camelot_read_pdf := fun _ _ => Ok [header_in_third_row] |}.

Definition statement_no_markers : PS.Pdf :=
  {| PS.fitz_open := Ok [Ok (u "Aviso de privacidad")];
     PS.camelot_read_pdf := fun _ _ => Ok [header_in_third_row] |}.

Definition statement_one_cell : PS.Pdf :=
  {| PS.fitz_open :=
       Ok [Ok (u "Saldo inicial 1,000.00 Saldo minimo requerido 0.00")];
     PS.camelot_read_pdf := fun _ _ => Ok [one_cell_header] |}.

Definition rule_blank_keywords : PS.Rule :=
  {| PS.Priority := 1; PS.Keywords := PyNaN;
     PS.Output_Template := PyStr (u "Sin clasificar") |}.

(** * Facts about the string primitives *)

Section StringFacts.

Lemma split_ws_from_word cur w rest :
  nospace w -> split_ws_from cur (w ++ rest) = split_ws_from (cur ++ w) rest.
Proof.
  intros Hw. revert cur.
  induction Hw as [|c w Hc _ IH]; intros cur; simpl.
  - by rewrite app_nil_r.
  - rewrite Hc, IH, <- app_assoc. reflexivity.
Qed.

Lemma split_ws_from_nil cur : cur <> [] -> split_ws_from cur [] = [cur].
Proof. destruct cur; [congruence | reflexivity]. Qed.

Lemma split_ws_from_space cur rest :
  split_ws_from cur (space ++ rest) =
  match cur with
  | [] => split_ws_from [] rest
  | _ => cur :: split_ws_from [] rest
  end.
Proof. reflexivity. Qed.

Lemma split_ws_join ws :
  Forall is_word ws -> split_ws (join space ws) = ws.
Proof.
  unfold split_ws.
  induction 1 as [|w ws [Hne Hw] Hws IH]; [reflexivity|].
  destruct ws as [|w2 ws'].
  - simpl. rewrite <- (app_nil_r w) at 1.
    rewrite split_ws_from_word by assumption.
    simpl. by apply split_ws_from_nil.
  - change (join space (w :: w2 :: ws')) with (w ++ space ++ join space (w2 :: ws')).
    rewrite split_ws_from_word, split_ws_from_space, IH by assumption.
    destruct w; [congruence | reflexivity].
Qed.

Lemma split_ws_from_words s : forall cur,
  nospace cur -> Forall is_word (split_ws_from cur s).
Proof.
  induction s as [|c s IH]; intros cur Hcur; simpl.
  - destruct cur; constructor; [split; [discriminate | assumption] | constructor].
  - destruct (isspace c) eqn:Hc.
    + destruct cur as [|a cur'].
      * apply IH. constructor.
      * constructor; [split; [discriminate | assumption] |].
        apply IH. constructor.
    + apply IH. apply Forall_app. split; [assumption|]. by repeat constructor.
Qed.

Lemma split_ws_from_Forall (P : codepoint -> Prop) s : forall cur,
  Forall P cur -> Forall P s -> Forall (Forall P) (split_ws_from cur s).
Proof.
  induction s as [|c s IH]; intros cur Hcur Hs; simpl.
  - destruct cur; [constructor | constructor; [assumption | constructor]].
  - apply Forall_cons in Hs as [Hc Hs].
    destruct (isspace c).
    + destruct cur; [apply IH | constructor; [assumption | apply IH]];
        first [assumption | constructor].
    + apply IH; [|assumption]. apply Forall_app. by repeat constructor.
Qed.

Lemma join_Forall (P : codepoint -> Prop) sep ws :
  Forall P sep -> Forall (Forall P) ws -> Forall P (join sep ws).
Proof.
  intros Hsep. induction 1 as [|w ws Hw Hws IH]; [constructor|].
  destruct ws as [|w2 ws']; [exact Hw|].
  change (join sep (w :: w2 :: ws')) with (w ++ sep ++ join sep (w2 :: ws')).
  rewrite !Forall_app. auto.
Qed.

Lemma encode_ascii_ignore_ascii s :
  Forall (fun c => c < 128) (encode_ascii_ignore s).
Proof.
  unfold encode_ascii_ignore. induction s as [|c s IH]; simpl; [constructor|].
  destruct (is_ascii c) eqn:Hc; [|assumption].
  constructor; [|assumption]. by apply N.ltb_lt.
Qed.

Lemma encode_ascii_ignore_id s :
  Forall (fun c => c < 128) s -> encode_ascii_ignore s = s.
Proof.
  unfold encode_ascii_ignore. induction 1 as [|c s Hc _ IH]; simpl; [reflexivity|].
  apply N.ltb_lt in Hc. change (is_ascii c = true) in Hc. by rewrite Hc, IH.
Qed.

Lemma lower_cp_not_upper c : ~ is_upper (lower_cp c).
Proof.
  unfold lower_cp, is_upper.
  destruct (65 <=? c) eqn:H1, (c <=? 90) eqn:H2; simpl;
    rewrite ?N.leb_le, ?N.leb_gt in *; lia.
Qed.

Lemma lower_cp_ascii c : c < 128 -> lower_cp c < 128.
Proof.
  unfold lower_cp.
  destruct (65 <=? c) eqn:H1, (c <=? 90) eqn:H2; simpl;
    rewrite ?N.leb_le, ?N.leb_gt in *; lia.
Qed.

Lemma lower_cp_id c : ~ is_upper c -> lower_cp c = c.
Proof.
  unfold lower_cp, is_upper.
  destruct (65 <=? c) eqn:H1, (c <=? 90) eqn:H2; simpl;
    rewrite ?N.leb_le, ?N.leb_gt in *; lia.
Qed.

Lemma lower_id s : Forall (fun c => ~ is_upper c) s -> lower s = s.
Proof.
  unfold lower. induction 1 as [|c s Hc _ IH]; simpl; [reflexivity|].
  by rewrite lower_cp_id, IH.
Qed.

Lemma startswith_spec p s : startswith p s = true <-> exists after, s = p ++ after.
Proof.
  revert s. induction p as [|a p IH]; intros s; simpl.
  - split; eauto.
  - destruct s as [|b s]; simpl.
    + split; [discriminate | intros [? ?]; discriminate].
    + rewrite andb_true_iff, N.eqb_eq, IH. split.
      * intros [-> [after ->]]. eauto.
      * intros [after Heq]. injection Heq as -> ->. eauto.
Qed.

Lemma contains_spec needle haystack :
  contains needle haystack = true <-> substring needle haystack.
Proof.
  unfold substring. induction haystack as [|c h IH]; simpl.
  - rewrite orb_false_r, startswith_spec. split.
    + intros [after Heq]. exists [], after. exact Heq.
    + intros (before & after & Heq). destruct before; simpl in Heq.
      * eauto.
      * discriminate.
  - rewrite orb_true_iff, startswith_spec, IH. split.
    + intros [[after Heq] | (before & after & Heq)].
      * exists [], after. exact Heq.
      * exists (c :: before), after. simpl. by rewrite Heq.
    + intros (before & after & Heq). destruct before as [|b before]; simpl in Heq.
      * left. eauto.
      * right. injection Heq as _ Heq. eauto.
Qed.

Lemma contains_nil haystack : contains [] haystack = true.
Proof. destruct haystack; reflexivity. Qed.

Lemma str_in_spec x xs : str_in x xs = true <-> In x xs.
Proof.
  unfold str_in, str_eqb. rewrite existsb_exists. split.
  - intros (y & Hy & Heq). apply bool_decide_eq_true in Heq. by subst.
  - intros Hx. exists x. split; [assumption|]. by apply bool_decide_eq_true.
Qed.

End StringFacts.

Section StripFacts.

Lemma join_snoc sep ws w :
  join sep (ws ++ [w]) =
  match ws with
  | [] => w
  | _ => join sep ws ++ sep ++ w
  end.
Proof.
  induction ws as [|a ws IH]; [reflexivity|].
  destruct ws as [|b ws']; [reflexivity|].
  change (join sep ((a :: b :: ws') ++ [w]))
    with (a ++ sep ++ join sep ((b :: ws') ++ [w])).
  rewrite IH.
  change (join sep (a :: b :: ws')) with (a ++ sep ++ join sep (b :: ws')).
  by rewrite <- !app_assoc.
Qed.

Lemma rev_join sep ws :
  rev (join sep ws) = join (rev sep) (rev (List.map (@rev codepoint) ws)).
Proof.
  induction ws as [|a ws IH]; [reflexivity|].
  destruct ws as [|b ws'].
  - reflexivity.
  - change (join sep (a :: b :: ws')) with (a ++ sep ++ join sep (b :: ws')).
    rewrite !rev_app_distr, IH, <- app_assoc.
    change (List.map (@rev codepoint) (a :: b :: ws'))
      with (rev a :: List.map (@rev codepoint) (b :: ws')).
    change (rev (rev a :: ?l)) with (rev l ++ [rev a]).
    rewrite join_snoc.
    destruct (rev (List.map (@rev codepoint) (b :: ws'))) eqn:Hrev; [|reflexivity].
    apply (f_equal (@length _)) in Hrev.
    rewrite length_rev in Hrev. discriminate.
Qed.

Lemma is_word_rev w : is_word w -> is_word (rev w).
Proof.
  intros [Hne Hw]. split.
  - intros Hrev. apply Hne. apply (f_equal (@rev _)) in Hrev.
    by rewrite rev_involutive in Hrev.
  - unfold nospace in *. rewrite Forall_forall in *.
    intros c Hc. apply Hw. by apply list_elem_of_In, in_rev, list_elem_of_In.
Qed.

Lemma lstrip_join ws : Forall is_word ws -> lstrip (join space ws) = join space ws.
Proof.
  destruct 1 as [|w ws [Hne Hw] _]; [reflexivity|].
  destruct w as [|a w]; [congruence|].
  apply Forall_cons in Hw as [Ha _].
  destruct ws; simpl; by rewrite Ha.
Qed.

Lemma strip_join ws : Forall is_word ws -> strip (join space ws) = join space ws.
Proof.
  intros Hws. unfold strip.
  rewrite lstrip_join, rev_join by assumption.
  change (rev space) with space.
  rewrite lstrip_join.
  - transitivity (rev (rev (join space ws))); [|apply rev_involutive].
    f_equal. symmetry. apply (rev_join space ws).
  - apply Forall_rev, Forall_forall. intros w Hw.
    apply list_elem_of_In, in_map_iff in Hw as (w0 & <- & Hw0).
    apply is_word_rev. rewrite Forall_forall in Hws.
    by apply Hws, list_elem_of_In.
Qed.

End StripFacts.

(** * The text normalizer *)

Section NormalizeFacts.

Variable nfkd : pystr -> pystr.

Local Abbreviation normalize_text := (PS.normalize_text nfkd).

(** The result is always a single-space join of lowercase ASCII words. *)
Lemma normalize_text_shape x :
  exists ws, normalize_text x = join space ws
    /\ Forall is_word ws
    /\ Forall (Forall (fun c => c < 128)) ws
    /\ Forall (Forall (fun c => ~ is_upper c)) ws.
Proof.
  destruct x as [| |s].
  - exists []. repeat split; constructor.
  - eexists. split; [reflexivity|]. repeat split.
    + apply split_ws_from_words. constructor.
    + apply split_ws_from_Forall; [constructor|].
      apply Forall_forall. intros c Hc.
      apply list_elem_of_In, in_map_iff in Hc as (c0 & <- & Hc0).
      apply lower_cp_ascii.
      pose proof (encode_ascii_ignore_ascii (nfkd (py_str PyNaN))) as Ha.
      rewrite Forall_forall in Ha. by apply Ha, list_elem_of_In.
    + apply split_ws_from_Forall; [constructor|].
      apply Forall_forall. intros c Hc.
      apply list_elem_of_In, in_map_iff in Hc as (c0 & <- & Hc0).
      apply lower_cp_not_upper.
  - eexists. split; [reflexivity|]. repeat split.
    + apply split_ws_from_words. constructor.
    + apply split_ws_from_Forall; [constructor|].
      apply Forall_forall. intros c Hc.
      apply list_elem_of_In, in_map_iff in Hc as (c0 & <- & Hc0).
      apply lower_cp_ascii.
      pose proof (encode_ascii_ignore_ascii (nfkd (py_str (PyStr s)))) as Ha.
      rewrite Forall_forall in Ha. by apply Ha, list_elem_of_In.
    + apply split_ws_from_Forall; [constructor|].
      apply Forall_forall. intros c Hc.
      apply list_elem_of_In, in_map_iff in Hc as (c0 & <- & Hc0).
      apply lower_cp_not_upper.
Qed.

Lemma normalize_text_is_ascii x : Forall (fun c => c < 128) (normalize_text x).
Proof.
  destruct (normalize_text_shape x) as (ws & -> & _ & Ha & _).
  apply join_Forall; [|assumption]. repeat constructor.
Qed.

Lemma normalize_text_no_upper x : Forall (fun c => ~ is_upper c) (normalize_text x).
Proof.
  destruct (normalize_text_shape x) as (ws & -> & _ & _ & Hl).
  apply join_Forall; [|assumption].
  repeat constructor. unfold is_upper. lia.
Qed.

Hypothesis nfkd_ascii : forall s, Forall (fun c => c < 128) s -> nfkd s = s.

(** On ASCII text NFKD and the ASCII filter do nothing. *)
Lemma normalize_text_of_ascii s :
  Forall (fun c => c < 128) s ->
  normalize_text (PyStr s) = join space (split_ws (lower s)).
Proof.
  intros Hs. unfold PS.normalize_text. simpl.
  by rewrite nfkd_ascii, encode_ascii_ignore_id.
Qed.

Lemma normalize_text_fixed x :
  normalize_text (PyStr (normalize_text x)) = normalize_text x.
Proof.
  rewrite normalize_text_of_ascii by apply normalize_text_is_ascii.
  rewrite lower_id by apply normalize_text_no_upper.
  destruct (normalize_text_shape x) as (ws & -> & Hw & _).
  by rewrite split_ws_join.
Qed.

Lemma normalize_text_empty : normalize_text (PyStr []) = [].
Proof. by rewrite normalize_text_of_ascii by constructor. Qed.

(** C5. The normalizer is idempotent and its result is ASCII-only; [None]
    and the empty string give the empty string; the result has no upper
    case letter and no combining accent, its only white space is the
    single space, collapsing its white space again or trimming it changes
    nothing. *)
Theorem normalize_text_idempotent_ascii (x : pyval) :
  let r := normalize_text x in
  normalize_text (PyStr r) = r
  /\ Forall (fun c => c < 128) r
  /\ normalize_text PyNone = []
  /\ normalize_text (PyStr []) = []
  /\ Forall (fun c => ~ is_upper c) r
  /\ Forall (fun c => ~ (768 <= c <= 879)) r
  /\ Forall (fun c => isspace c = true -> c = 32) r
  /\ join space (split_ws r) = r
  /\ strip r = r.
Proof.
  intros r. subst r.
  split; [apply normalize_text_fixed|].
  split; [apply normalize_text_is_ascii|].
  split; [reflexivity|].
  split; [apply normalize_text_empty|].
  split; [apply normalize_text_no_upper|].
  split.
  { eapply Forall_impl; [apply normalize_text_is_ascii|]. simpl. lia. }
  destruct (normalize_text_shape x) as (ws & -> & Hw & _).
  split.
  { apply join_Forall; [by repeat constructor|].
    eapply Forall_impl; [exact Hw|]. intros w [_ Hns].
    eapply Forall_impl; [exact Hns|]. simpl. congruence. }
  split; [by rewrite split_ws_join | by apply strip_join].
Qed.

End NormalizeFacts.

Lemma nfkd_latin_ascii s : Forall (fun c => c < 128) s -> nfkd_latin s = s.
Proof.
  unfold nfkd_latin. induction 1 as [|c s Hc _ IH]; [reflexivity|].
  simpl. rewrite IH. unfold nfkd_cp.
  repeat match goal with
  | |- context [c =? ?k] =>
      destruct (N.eqb_spec c k); [lia|]
  end.
  reflexivity.
Qed.

(** C5 on the text [" \201l  NI\241O \160\t"]: the result is ["el nino"]. *)
Lemma normalize_text_idempotent_ascii_witness :
  let x := PyStr ([32; 201] ++ u "l  NI" ++ [241] ++ u "O " ++ [160; 9]) in
  PS.normalize_text nfkd_latin x = u "el nino"
  /\ PS.normalize_text nfkd_latin (PyStr (PS.normalize_text nfkd_latin x))
     = PS.normalize_text nfkd_latin x.
Proof.
  split; [reflexivity|].
  exact (proj1 (normalize_text_idempotent_ascii nfkd_latin nfkd_latin_ascii _)).
Defined.

(** * The rulebook matcher *)

Section SplitFacts.

Variable sep : codepoint.

Lemma split_on_from_nonempty s : forall cur, split_on_from sep cur s <> [].
Proof.
  induction s as [|c s IH]; intros cur; simpl; [discriminate|].
  destruct (c =? sep); [discriminate | apply IH].
Qed.

Lemma join_cons sep' w (ws : list pystr) :
  ws <> [] -> join sep' (w :: ws) = w ++ sep' ++ join sep' ws.
Proof. by destruct ws. Qed.

(** Joining the pieces with the separator gives the string back. *)
Lemma join_split_on_from s : forall cur,
  join [sep] (split_on_from sep cur s) = cur ++ s.
Proof.
  induction s as [|c s IH]; intros cur; simpl.
  - by rewrite app_nil_r.
  - destruct (N.eqb_spec c sep) as [->|Hc].
    + rewrite join_cons by apply split_on_from_nonempty.
      by rewrite IH.
    + rewrite IH. by rewrite <- app_assoc.
Qed.

(** No piece holds the separator. *)
Lemma split_on_from_no_sep s : forall cur,
  ~ In sep cur -> Forall (fun w => ~ In sep w) (split_on_from sep cur s).
Proof.
  induction s as [|c s IH]; intros cur Hcur; simpl.
  - by repeat constructor.
  - destruct (N.eqb_spec c sep) as [->|Hc].
    + constructor; [assumption|]. apply IH. intros [].
    + apply IH. intros Hin. apply in_app_or in Hin as [Hin | [Heq | []]];
        [contradiction | congruence].
Qed.

Lemma split_on_from_word w : forall cur rest,
  ~ In sep w -> split_on_from sep cur (w ++ rest) = split_on_from sep (cur ++ w) rest.
Proof.
  induction w as [|c w IH]; intros cur rest Hw; simpl.
  - by rewrite app_nil_r.
  - destruct (N.eqb_spec c sep) as [->|Hc]; [exfalso; apply Hw; by left|].
    rewrite IH by (intros Hin; apply Hw; by right).
    by rewrite <- app_assoc.
Qed.

(** Words without the separator, joined, split into the same words. *)
Lemma split_on_from_join ws : forall cur w,
  Forall (fun x => ~ In sep x) (w :: ws) ->
  split_on_from sep cur (join [sep] (w :: ws)) = (cur ++ w) :: ws.
Proof.
  induction ws as [|w' ws IH]; intros cur w Hall.
  - apply Forall_cons in Hall as [Hw _].
    change (join [sep] [w]) with w.
    rewrite <- (app_nil_r w) at 1. by rewrite split_on_from_word.
  - apply Forall_cons in Hall as [Hw Hall].
    rewrite join_cons by discriminate.
    rewrite split_on_from_word by assumption.
    change ([sep] ++ join [sep] (w' :: ws)) with (sep :: join [sep] (w' :: ws)).
    cbn [split_on_from]. rewrite N.eqb_refl.
    by rewrite IH.
Qed.

End SplitFacts.

(** The pieces that [split(',')] returns are the only list of comma-free
    strings that joins, with commas, to the string. *)
Lemma split_on_comma_separated (s : pystr) (kws : list pystr) :
  comma_separated s kws <-> kws = split_on comma s.
Proof.
  unfold comma_separated, split_on. split.
  - intros (Hne & Hall & <-).
    destruct kws as [|w ws]; [contradiction|].
    by rewrite split_on_from_join.
  - intros ->. split; [apply split_on_from_nonempty|].
    split; [apply split_on_from_no_sep; intros [] | apply join_split_on_from].
Qed.

Section RuleFacts.

Variable nfkd : pystr -> pystr.

Local Abbreviation normalize_text := (PS.normalize_text nfkd).
Local Abbreviation apply_rules := (PS.apply_rules nfkd).
Local Abbreviation all_keywords_in := (PS.all_keywords_in nfkd).
Local Abbreviation rule_matches := (rule_matches nfkd).

Lemma all_keywords_in_spec kws nc :
  all_keywords_in kws nc = true <->
  forall kw, In kw kws -> substring (normalize_text (PyStr kw)) nc.
Proof.
  unfold PS.all_keywords_in. rewrite forallb_forall.
  split; intros H kw Hkw; apply contains_spec, H, Hkw.
Qed.

Lemma all_keywords_in_matches concepto r :
  all_keywords_in (rule_keywords r) (normalize_text concepto) = true
  <-> rule_matches concepto r.
Proof. apply all_keywords_in_spec. Qed.

Lemma all_keywords_in_perm kws kws' nc :
  Permutation kws kws' -> all_keywords_in kws nc = all_keywords_in kws' nc.
Proof.
  intros Hp. apply eq_true_iff_eq. rewrite !all_keywords_in_spec.
  split; intros H kw Hkw; apply H.
  - eapply Permutation_in; [symmetry; exact Hp | exact Hkw].
  - eapply Permutation_in; [exact Hp | exact Hkw].
Qed.

Lemma sorted_after {A} (R : A -> A -> Prop) pre x post :
  StronglySorted R (pre ++ x :: post) -> Forall (R x) post.
Proof.
  induction pre as [|a pre IH]; simpl; intros Hs.
  - by apply StronglySorted_inv in Hs as [_ H].
  - apply StronglySorted_inv in Hs as [Hs _]. auto.
Qed.

(** What the loop returns: the template of the first rule that passes the
    test, or nothing when every rule fails it. *)
Lemma apply_rules_loop_spec nc rules :
  match PS.apply_rules_loop nfkd nc rules with
  | Some t =>
      exists pre r post, rules = pre ++ r :: post
        /\ Forall (fun x => all_keywords_in (rule_keywords x) nc = false) pre
        /\ all_keywords_in (rule_keywords r) nc = true
        /\ t = PyStr (py_str (PS.Output_Template r))
  | None => Forall (fun x => all_keywords_in (rule_keywords x) nc = false) rules
  end.
Proof.
  induction rules as [|r rules IH]; simpl; [constructor|].
  fold (rule_keywords r).
  destruct (all_keywords_in (rule_keywords r) nc) eqn:Hr.
  - exists [], r, rules. repeat split; [constructor | assumption].
  - destruct (PS.apply_rules_loop nfkd nc rules) as [t|].
    + destruct IH as (pre & r' & post & -> & Hpre & Hr' & ->).
      exists (r :: pre), r', post. repeat split; [constructor|]; assumption.
    + by constructor.
Qed.

Lemma not_matches concepto r :
  all_keywords_in (rule_keywords r) (normalize_text concepto) = false
  <-> ~ rule_matches concepto r.
Proof.
  rewrite <- all_keywords_in_matches.
  destruct (all_keywords_in _ _); split; congruence.
Qed.

(** C2. For every concepto and every rule sequence, either some rule
    matches, and then the result is the template string of the first
    matching rule in the order of the sequence (for a sequence sorted by
    ascending priority: a matching rule of least priority), or no rule
    matches and the result is the input itself.  A rule matches when
    each of its comma-separated keywords, normalized on its own, is a
    substring of the normalized concepto; the order of the keywords is
    irrelevant.  The keywords of a rule are the pieces of its Keywords
    string between the commas: the one list of comma-free strings, not
    empty, that gives the string back when joined with commas. *)
Theorem apply_rules_first_match (concepto : pyval) (rules : list PS.Rule) :
  ((exists pre r post, rules = pre ++ r :: post
      /\ Forall (fun x => ~ rule_matches concepto x) pre
      /\ rule_matches concepto r
      /\ apply_rules concepto rules = PyStr (py_str (PS.Output_Template r))
      /\ (StronglySorted by_priority rules ->
          forall r', In r' rules -> rule_matches concepto r' ->
            (PS.Priority r <= PS.Priority r')%Z))
   \/ (Forall (fun x => ~ rule_matches concepto x) rules
       /\ apply_rules concepto rules = concepto))
  /\ (forall r, all_keywords_in (rule_keywords r) (normalize_text concepto) = true
                <-> rule_matches concepto r)
  /\ (forall kws kws' nc, Permutation kws kws' ->
        all_keywords_in kws nc = all_keywords_in kws' nc)
  /\ (forall r kws, comma_separated (py_str (PS.Keywords r)) kws
                    <-> kws = rule_keywords r).
Proof.
  split; [|split; [intros r; apply all_keywords_in_matches
                  |split; [apply all_keywords_in_perm
                          |intros r kws; apply split_on_comma_separated]]].
  unfold PS.apply_rules.
  pose proof (apply_rules_loop_spec (normalize_text concepto) rules) as Hloop.
  destruct (PS.apply_rules_loop nfkd (normalize_text concepto) rules) as [t|].
  - left. destruct Hloop as (pre & r & post & -> & Hpre & Hr & ->).
    exists pre, r, post. repeat split.
    + eapply Forall_impl; [exact Hpre|]. intros x Hx. by apply not_matches.
    + by apply all_keywords_in_matches.
    + intros Hsorted r' Hin Hr'.
      apply in_app_or in Hin as [Hin | [<- | Hin]].
      * rewrite Forall_forall in Hpre.
        apply list_elem_of_In, Hpre, not_matches in Hin. contradiction.
      * reflexivity.
      * apply sorted_after in Hsorted as Hle.
        rewrite Forall_forall in Hle. by apply Hle, list_elem_of_In.
  - right. split; [|reflexivity].
    eapply Forall_impl; [exact Hloop|]. intros x Hx. by apply not_matches.
Qed.

(** C9. A rule whose Keywords string is empty has the single keyword
    [''] and matches every concepto; when the rule set contains such a
    rule the loop always returns, with the template of that rule or of a
    matching rule before it, and the final [return concepto] is not
    reached. *)
Theorem empty_keywords_rule_matches_all
  (Hempty : nfkd [] = [])
  (concepto : pyval) (rules : list PS.Rule) (r : PS.Rule)
  (Hin : In r rules) (Hkw : PS.Keywords r = PyStr []) :
  rule_keywords r = [[]]
  /\ rule_matches concepto r
  /\ exists pre r' post, rules = pre ++ r' :: post
       /\ (r' = r \/ In r post)
       /\ rule_matches concepto r'
       /\ PS.apply_rules_loop nfkd (normalize_text concepto) rules
          = Some (PyStr (py_str (PS.Output_Template r')))
       /\ apply_rules concepto rules = PyStr (py_str (PS.Output_Template r')).
Proof.
  assert (Hks : rule_keywords r = [[]]) by (unfold rule_keywords; by rewrite Hkw).
  assert (Hr : rule_matches concepto r).
  { intros kw. rewrite Hks. intros [<- | []].
    apply contains_spec.
    unfold PS.normalize_text at 1. simpl py_str. rewrite Hempty.
    apply contains_nil. }
  split; [exact Hks|]. split; [exact Hr|].
  unfold PS.apply_rules.
  pose proof (apply_rules_loop_spec (normalize_text concepto) rules) as Hloop.
  destruct (PS.apply_rules_loop nfkd (normalize_text concepto) rules) as [t|].
  - destruct Hloop as (pre & r' & post & -> & Hpre & Hr' & ->).
    exists pre, r', post. repeat split.
    + apply in_app_or in Hin as [Hin | [-> | Hin]]; [|by left|by right].
      rewrite Forall_forall in Hpre.
      apply list_elem_of_In, Hpre, not_matches in Hin. contradiction.
    + by apply all_keywords_in_matches.
  - rewrite Forall_forall in Hloop.
    apply list_elem_of_In, Hloop, not_matches in Hin. contradiction.
Qed.

End RuleFacts.

(** * Page-range detection *)

Section PageFacts.

Variable nfkd : pystr -> pystr.

Local Abbreviation has_start := (has_start nfkd).
Local Abbreviation has_end := (has_end nfkd).

Lemma scan_pages_spec texts : forall k s e,
  exists s' e',
    PS.scan_pages nfkd (List.map Ok texts) k s e = Ok (s', e')
    /\ match s with
       | Some _ => s' = s
       | None => first_page has_start texts k s'
       end
    /\ ((e' = e /\ Forall (fun t => has_end t = false) texts)
        \/ (exists p, e' = Some p /\ last_page has_end texts k (Some p))).
Proof.
  induction texts as [|t texts IH]; intros k s e.
  - exists s, e. split; [reflexivity|]. split.
    + destruct s; [reflexivity | constructor].
    + left. split; [reflexivity | constructor].
  - simpl. fold (has_start t). fold (has_end t).
    set (s1 := match s with
               | Some _ => s
               | None => if has_start t then Some k else None
               end).
    set (e1 := if has_end t then Some k else e).
    destruct (IH (k + 1)%Z s1 e1) as (s' & e' & Hscan & Hs & He).
    exists s', e'. split; [exact Hscan|]. split.
    + destruct s as [x|]; [exact Hs|].
      subst s1. destruct (has_start t) eqn:Ht.
      * subst s'. exists 0%nat, t. repeat split; [lia | assumption | lia].
      * destruct s' as [p|]; simpl in *.
        -- destruct Hs as (i & t' & -> & Hi & Ht' & Hbefore).
           exists (S i), t'. repeat split; [lia | assumption..|].
           intros [|j] t'' Hj Hl; simpl in Hl.
           ++ congruence.
           ++ eapply Hbefore; [|exact Hl]. lia.
        -- by constructor.
    + subst e1. destruct He as [[-> Hnone] | (p & -> & i & t' & -> & Hi & Ht' & Hafter)].
      * destruct (has_end t) eqn:Ht.
        -- right. exists k. split; [reflexivity|].
           exists 0%nat, t. repeat split; [lia | assumption |].
           intros [|j] t'' Hj Hl; [lia|]. simpl in Hl.
           rewrite Forall_forall in Hnone. eapply Hnone, list_elem_of_lookup_2, Hl.
        -- left. split; [reflexivity | by constructor].
      * right. eexists. split; [reflexivity|].
        exists (S i), t'. repeat split; [lia | assumption..|].
        intros [|j] t'' Hj Hl; [lia|]. simpl in Hl.
        eapply Hafter; [|exact Hl]. lia.
Qed.

Lemma scan_pages_raises pages : forall k s e e0,
  In (Raise e0) pages -> exists e1, PS.scan_pages nfkd pages k s e = Raise e1.
Proof.
  induction pages as [|page pages IH]; intros k s e e0 Hin; [destruct Hin|].
  simpl. destruct page as [raw|e1]; simpl.
  - destruct Hin as [Heq | Hin]; [discriminate|].
    eapply IH, Hin.
  - eauto.
Qed.

(** C4. For a document whose pages are read in order from page 1, the
    detected start is the first page whose normalized text contains the
    start marker and the detected end is the last page whose normalized
    text contains the end marker.  In particular, when the start marker
    is on page 3 only and the end marker on pages 3 and 5 only, the
    detected range is (3, 5). *)
Theorem page_range_first_start_last_end
  (texts : list pystr) (camelot : Z -> Z -> result (list RawTable)) :
  exists s e,
    PS.page_range nfkd (readable texts camelot) = Ok (s, e)
    /\ first_page has_start texts 1 s
    /\ last_page has_end texts 1 e
    /\ ((forall j t, texts !! j = Some t -> (has_start t = true <-> j = 2%nat)) ->
        (forall j t, texts !! j = Some t -> (has_end t = true <-> j = 2%nat \/ j = 4%nat)) ->
        (5 <= length texts)%nat ->
        s = Some 3%Z /\ e = Some 5%Z /\ PS.valid_range (s, e) = Some (3, 5)%Z).
Proof.
  destruct (scan_pages_spec texts 1 None None) as (s & e & Hscan & Hs & He).
  exists s, e. split; [exact Hscan|].
  assert (He' : last_page has_end texts 1 e).
  { destruct He as [[-> Hnone] | (p & -> & Hp)]; assumption. }
  split; [exact Hs|]. split; [exact He'|].
  intros Hstart Hend Hlen.
  destruct (lookup_lt_is_Some_2 texts 2) as [t3 Ht3]; [lia|].
  destruct (lookup_lt_is_Some_2 texts 4) as [t5 Ht5]; [lia|].
  assert (s = Some 3%Z) as ->.
  { destruct s as [p|]; simpl in Hs.
    - destruct Hs as (i & t & -> & Hi & Ht & _).
      apply (Hstart _ _ Hi) in Ht. subst i. reflexivity.
    - rewrite Forall_forall in Hs.
      pose proof (Hs _ (list_elem_of_lookup_2 _ _ _ Ht3)) as Hno.
      pose proof (proj2 (Hstart _ _ Ht3) eq_refl). congruence. }
  assert (e = Some 5%Z) as ->.
  { destruct e as [p|]; simpl in He'.
    - destruct He' as (i & t & -> & Hi & Ht & Hafter).
      apply (Hend _ _ Hi) in Ht as [-> | ->]; [|reflexivity].
      assert (has_end t5 = false) by (eapply (Hafter 4%nat); [lia | exact Ht5]).
      pose proof (proj2 (Hend _ _ Ht5) (or_intror eq_refl)). congruence.
    - rewrite Forall_forall in He'.
      pose proof (He' _ (list_elem_of_lookup_2 _ _ _ Ht5)) as Hno.
      pose proof (proj2 (Hend _ _ Ht5) (or_intror eq_refl)). congruence. }
  repeat split.
Qed.

Local Abbreviation find_transaction_tables := (PS.find_transaction_tables nfkd).

Lemma find_transaction_tables_valid_range pdf a b :
  PS.page_range nfkd pdf = Ok (Some a, Some b) -> (a <= b)%Z ->
  find_transaction_tables pdf =
  match PS.camelot_read_pdf pdf a b with
  | Raise _ => []
  | Ok tables => PS.collect_tables nfkd tables []
  end.
Proof.
  intros Hr Hab. unfold PS.find_transaction_tables. rewrite Hr. simpl.
  destruct (Z.ltb_spec b a); [lia | reflexivity].
Qed.

Lemma process_files_skip to_numeric_notna rules pdf :
  find_transaction_tables pdf = [] ->
  forall before after sheets,
    PS.process_files nfkd to_numeric_notna rules (before ++ pdf :: after) sheets
    = PS.process_files nfkd to_numeric_notna rules (before ++ after) sheets.
Proof.
  intros Hnone before after.
  induction before as [|d before IH]; intros sheets; simpl.
  - by rewrite Hnone.
  - destruct (find_transaction_tables d) as [|t ts]; [apply IH|].
    destruct (pd_concat _) as [pdf_df|]; [|reflexivity]. simpl.
    destruct (PS.merge_concepto_lines _ _) as [cleaned|]; [|reflexivity]. simpl.
    destruct (PS.apply_to_concepto _ _) as [cleaned'|]; [|reflexivity]. simpl.
    apply IH.
Qed.

(** C6. A document that cannot be opened, or one of whose pages cannot
    be read, yields no table; so does a document whose scan leaves the
    start or the end page unset or ends with the end page before the
    start page.  The function returns the empty list in all these cases
    (no exception leaves it), and in the loop over the files such a
    document is skipped: the run is the run without it. *)
Theorem invalid_page_range_yields_nothing (pdf : PS.Pdf) :
  (forall e, PS.fitz_open pdf = Raise e -> find_transaction_tables pdf = [])
  /\ (forall pages e, PS.fitz_open pdf = Ok pages -> In (Raise e) pages ->
        find_transaction_tables pdf = [])
  /\ (forall s e, PS.page_range nfkd pdf = Ok (s, e) ->
        s = None \/ e = None
        \/ (exists a b, s = Some a /\ e = Some b /\ (b < a)%Z) ->
        find_transaction_tables pdf = [])
  /\ (find_transaction_tables pdf = [] ->
      forall to_numeric_notna rules before after sheets,
        PS.process_files nfkd to_numeric_notna rules (before ++ pdf :: after) sheets
        = PS.process_files nfkd to_numeric_notna rules (before ++ after) sheets).
Proof.
  repeat split.
  - intros e He. unfold PS.find_transaction_tables, PS.page_range.
    by rewrite He.
  - intros pages e Hopen Hin.
    unfold PS.find_transaction_tables, PS.page_range. rewrite Hopen. simpl.
    destruct (scan_pages_raises pages 1 None None e Hin) as [e1 ->].
    reflexivity.
  - intros s e Hr Hbad. unfold PS.find_transaction_tables. rewrite Hr.
    destruct Hbad as [-> | [-> | (a & b & -> & -> & Hlt)]]; simpl.
    + reflexivity.
    + by destruct s.
    + destruct (Z.ltb_spec b a); [reflexivity | lia].
  - intros Hnone to_numeric_notna rules. by apply process_files_skip.
Qed.

End PageFacts.

(** * Header detection *)

Section HeaderFacts.

Variable nfkd : pystr -> pystr.

Local Abbreviation normalize_text := (PS.normalize_text nfkd).
Local Abbreviation is_header_row := (PS.is_header_row nfkd).
Local Abbreviation header_found_at_row := (PS.header_found_at_row nfkd).
Local Abbreviation rebase := (PS.rebase nfkd).
Local Abbreviation collect_tables := (PS.collect_tables nfkd).
Local Abbreviation haystack := (haystack nfkd).

Lemma is_header_row_spec row :
  is_header_row row = true <->
  forall lbl, In lbl required_labels ->
    substring (normalize_text (PyStr lbl)) (haystack row).
Proof.
  unfold PS.is_header_row, PS.required_headers. fold (haystack row).
  fold required_labels.
  rewrite forallb_forall. split.
  - intros H lbl Hlbl. apply contains_spec, H.
    apply in_map_iff. eauto.
  - intros H req Hreq. apply in_map_iff in Hreq as (lbl & <- & Hlbl).
    apply contains_spec, H, Hlbl.
Qed.

Lemma header_search_spec candidates : forall i,
  (PS.header_search nfkd i candidates = (-1)%Z
   /\ Forall (fun r => is_header_row r = false) candidates)
  \/ (exists h row,
        PS.header_search nfkd i candidates = (i + Z.of_nat h)%Z
        /\ candidates !! h = Some row
        /\ is_header_row row = true
        /\ forall j r, (j < h)%nat -> candidates !! j = Some r ->
             is_header_row r = false).
Proof.
  induction candidates as [|row rest IH]; intros i; simpl.
  - left. split; [reflexivity | constructor].
  - destruct (is_header_row row) eqn:Hrow.
    + right. exists 0%nat, row. repeat split; [lia | assumption | lia].
    + destruct (IH (i + 1)%Z) as [[-> Hnone] | (h & r & -> & Hh & Hr & Hbefore)].
      * left. split; [reflexivity | by constructor].
      * right. exists (S h), r. repeat split; [lia | assumption..|].
        intros [|j] r' Hj Hl; simpl in Hl; [congruence|].
        eapply Hbefore; [|exact Hl]. lia.
Qed.

Lemma take_min_length {A} (l : list A) n : take (Nat.min n (length l)) l = take n l.
Proof.
  destruct (Nat.le_ge_cases n (length l)).
  - by rewrite Nat.min_l.
  - rewrite Nat.min_r, firstn_all by assumption.
    symmetry. by apply firstn_all2.
Qed.

(** The outcome of the search over the first five rows. *)
Lemma header_found_at_row_spec (df : RawTable) :
  (header_found_at_row df = (-1)%Z
   /\ forall j r, (j < 5)%nat -> df !! j = Some r -> is_header_row r = false)
  \/ (exists h row,
        header_found_at_row df = Z.of_nat h
        /\ (h < 5)%nat /\ df !! h = Some row /\ is_header_row row = true
        /\ forall j r, (j < h)%nat -> df !! j = Some r -> is_header_row r = false).
Proof.
  unfold PS.header_found_at_row. rewrite take_min_length.
  destruct (header_search_spec (take 5 df) 0)
    as [[-> Hnone] | (h & row & -> & Hh & Hrow & Hbefore)].
  - left. split; [reflexivity|]. intros j r Hj Hl.
    rewrite Forall_forall in Hnone.
    apply Hnone, (list_elem_of_lookup_2 _ j). by rewrite lookup_take_lt.
  - right. apply lookup_take_Some in Hh as [Hh Hlt].
    exists h, row. repeat split; [assumption..|].
    intros j r Hj Hl. apply (Hbefore j); [assumption|].
    rewrite lookup_take_lt by lia. exact Hl.
Qed.

(** The loop adds to what it was given, and runs over a concatenation
    piece by piece. *)
Lemma collect_tables_acc tables : forall acc,
  collect_tables tables acc = acc ++ collect_tables tables [].
Proof.
  induction tables as [|df rest IH]; intros acc; simpl.
  - by rewrite app_nil_r.
  - destruct (df_empty df); [apply IH|].
    destruct (rebase df) as [t|]; [|apply IH].
    rewrite IH, (IH [t]). by rewrite <- app_assoc.
Qed.

Lemma collect_tables_app before after : forall acc,
  collect_tables (before ++ after) acc
  = collect_tables after (collect_tables before acc).
Proof.
  induction before as [|df rest IH]; intros acc; [reflexivity|].
  simpl. destruct (df_empty df); [apply IH|].
  destruct (rebase df); apply IH.
Qed.

Lemma find_transaction_tables_in_range (pdf : PS.Pdf) a b tables :
  PS.page_range nfkd pdf = Ok (Some a, Some b) -> (a <= b)%Z ->
  PS.camelot_read_pdf pdf a b = Ok tables ->
  PS.find_transaction_tables nfkd pdf = collect_tables tables [].
Proof.
  intros Hrange Hab Hcam. unfold PS.find_transaction_tables.
  rewrite Hrange. unfold PS.valid_range.
  destruct (Z.ltb_spec b a); [lia|]. by rewrite Hcam.
Qed.

(** C3. For a non-empty raw table only the first five rows are examined;
    a row qualifies as header exactly when every normalized required
    label is a substring of the space-joined normalized cells of the row;
    the normalized cells of the first qualifying row become the column
    labels and the rows strictly after it the data rows, and that table
    is what the table loop and [find_transaction_tables] return for it,
    between the tables of the raw tables before and after it; when none
    of the first five rows qualifies the table adds nothing to the
    result.  The loop over no table returns what it was given. *)
Theorem header_detection (df : RawTable) (Hne : df_empty df = false) :
  (forall df', take 5 df' = take 5 df ->
     header_found_at_row df' = header_found_at_row df)
  /\ (forall row, is_header_row row = true <->
        forall lbl, In lbl required_labels ->
          substring (normalize_text (PyStr lbl)) (haystack row))
  /\ ((exists h row,
         (h < 5)%nat /\ df !! h = Some row /\ is_header_row row = true
         /\ (forall j r, (j < h)%nat -> df !! j = Some r -> is_header_row r = false)
         /\ header_found_at_row df = Z.of_nat h
         /\ rebase df = Some {| labels := List.map normalize_text row;
                                cells := drop (S h) df |}
         /\ (forall rest acc,
              collect_tables (df :: rest) acc =
              collect_tables rest
                (acc ++ [{| labels := List.map normalize_text row;
                            cells := drop (S h) df |}]))
         /\ collect_tables [df] []
            = [{| labels := List.map normalize_text row; cells := drop (S h) df |}]
         /\ forall (pdf : PS.Pdf) a b before after,
              PS.page_range nfkd pdf = Ok (Some a, Some b) -> (a <= b)%Z ->
              PS.camelot_read_pdf pdf a b = Ok (before ++ df :: after) ->
              PS.find_transaction_tables nfkd pdf
              = collect_tables before []
                ++ {| labels := List.map normalize_text row; cells := drop (S h) df |}
                   :: collect_tables after [])
      \/ ((forall j r, (j < 5)%nat -> df !! j = Some r -> is_header_row r = false)
          /\ header_found_at_row df = (-1)%Z
          /\ rebase df = None
          /\ (forall rest acc, collect_tables (df :: rest) acc = collect_tables rest acc)
          /\ collect_tables [df] [] = []
          /\ forall (pdf : PS.Pdf) a b before after,
               PS.page_range nfkd pdf = Ok (Some a, Some b) -> (a <= b)%Z ->
               PS.camelot_read_pdf pdf a b = Ok (before ++ df :: after) ->
               PS.find_transaction_tables nfkd pdf
               = collect_tables before [] ++ collect_tables after []))
  /\ (forall acc, collect_tables [] acc = acc).
Proof.
  split.
  { intros df' Heq. unfold PS.header_found_at_row.
    by rewrite !take_min_length, Heq. }
  split; [apply is_header_row_spec|].
  split; [|reflexivity].
  destruct (header_found_at_row_spec df)
    as [[Hh Hnone] | (h & row & Hh & Hlt & Hrow & Hq & Hbefore)].
  - right.
    assert (Hreb : rebase df = None) by (unfold PS.rebase; by rewrite Hh).
    assert (Hstep : forall rest acc,
              collect_tables (df :: rest) acc = collect_tables rest acc).
    { intros rest acc. simpl. by rewrite Hne, Hreb. }
    split; [assumption|]. split; [assumption|]. split; [assumption|].
    split; [exact Hstep|]. split; [by rewrite Hstep|].
    intros pdf a b before after Hrange Hab Hcam.
    rewrite (find_transaction_tables_in_range pdf a b _ Hrange Hab Hcam).
    rewrite collect_tables_app, Hstep. apply collect_tables_acc.
  - left. exists h, row.
    assert (Hreb : rebase df = Some {| labels := List.map normalize_text row;
                                       cells := drop (S h) df |}).
    { unfold PS.rebase. rewrite Hh.
      destruct (Z.eqb_spec (Z.of_nat h) (-1)); [lia|].
      rewrite Nat2Z.id, (nth_lookup_Some _ _ _ _ Hrow).
      replace (Z.to_nat (Z.of_nat h + 1)) with (S h) by lia.
      reflexivity. }
    assert (Hstep : forall rest acc,
              collect_tables (df :: rest) acc =
              collect_tables rest
                (acc ++ [{| labels := List.map normalize_text row;
                            cells := drop (S h) df |}])).
    { intros rest acc. simpl. by rewrite Hne, Hreb. }
    split; [assumption|]. split; [assumption|]. split; [assumption|].
    split; [assumption|]. split; [assumption|]. split; [assumption|].
    split; [exact Hstep|]. split; [by rewrite Hstep|].
    intros pdf a b before after Hrange Hab Hcam.
    rewrite (find_transaction_tables_in_range pdf a b _ Hrange Hab Hcam).
    rewrite collect_tables_app, Hstep, collect_tables_acc.
    by rewrite <- app_assoc.
Qed.

End HeaderFacts.

(** * The row merger *)

Lemma str_eqb_eq a b : str_eqb a b = true <-> a = b.
Proof. unfold str_eqb. apply bool_decide_eq_true. Qed.

Lemma has_repeated_label_NoDup index :
  has_repeated_label index = false <-> NoDup index.
Proof.
  induction index as [|c index IH]; simpl.
  - split; [constructor | reflexivity].
  - rewrite orb_false_iff, IH, NoDup_cons. split.
    + intros [Hc Hn]. split; [|assumption]. intros Hin.
      apply list_elem_of_In, str_in_spec in Hin. congruence.
    + intros [Hc Hn]. split; [|assumption].
      destruct (str_in c index) eqn:Hin; [|reflexivity].
      apply str_in_spec, list_elem_of_In in Hin. contradiction.
Qed.

Lemma repeated_NoDup c index : NoDup index -> repeated c index = false.
Proof.
  intros Hn. unfold repeated. apply Nat.ltb_ge.
  induction Hn as [|c0 index Hc0 _ IH]; simpl; [lia|].
  destruct (str_eqb c c0) eqn:Hc; [|exact IH].
  apply str_eqb_eq in Hc. subst c0. simpl.
  assert (List.filter (str_eqb c) index = []) as ->; [|simpl; lia].
  destruct (List.filter (str_eqb c) index) as [|x l] eqn:Hf; [reflexivity|].
  assert (Hx : In x (List.filter (str_eqb c) index)) by (rewrite Hf; by left).
  apply filter_In in Hx as [Hx Heq]. apply str_eqb_eq in Heq. subst x.
  apply list_elem_of_In in Hx. contradiction.
Qed.

Section MergeFacts.

Variable to_numeric_notna : pystr -> bool.
Variable index : list label.

Local Abbreviation is_new_transaction := (PS.is_new_transaction to_numeric_notna).
Local Abbreviation merge_loop := (PS.merge_loop to_numeric_notna index).
Local Abbreviation merge_concepto_lines := (PS.merge_concepto_lines to_numeric_notna).
Local Abbreviation starts_transaction := (starts_transaction to_numeric_notna).

Lemma merge_loop_step row rest processed cur :
  merge_loop (row :: rest) processed cur =
  match series_getitem index row PS.dia with
  | SubSeries => Raise ValueError
  | Scalar d =>
      if is_new_transaction d then
        merge_loop rest (processed ++ [row]) (Z.of_nat (length (processed ++ [row])) - 1)
      else if (cur =? -1)%Z then merge_loop rest processed cur
      else
        match series_getitem index row PS.concepto with
        | SubSeries => Raise ValueError
        | Scalar c =>
            if notna c && negb (str_eqb (strip (py_str c)) []) then
              let* processed' := PS.iadd_concepto processed cur (space ++ py_str c) in
              merge_loop rest processed' cur
            else merge_loop rest processed cur
        end
  end.
Proof. reflexivity. Qed.

Lemma iadd_concepto_last init tx s :
  PS.iadd_concepto (init ++ [tx]) (Z.of_nat (length init)) s =
  match series_get tx PS.concepto with
  | PyStr old => Ok (init ++ [series_set tx PS.concepto (PyStr (old ++ s))])
  | PyNone | PyNaN => Raise TypeError
  end.
Proof.
  unfold PS.iadd_concepto. rewrite Nat2Z.id, list_lookup_middle by reflexivity.
  destruct (series_get tx PS.concepto); try reflexivity.
  f_equal. rewrite <- (Nat.add_0_r (length init)) at 1.
  by rewrite insert_app_r.
Qed.

Lemma same_but_concepto_set tx r v :
  same_but_concepto tx r -> same_but_concepto (series_set tx PS.concepto v) r.
Proof.
  intros H c Hc. unfold series_set. rewrite lookup_insert_ne by congruence.
  by apply H.
Qed.

Lemma iadd_concepto_frame processed creators i s out :
  Forall2 same_but_concepto processed creators ->
  PS.iadd_concepto processed i s = Ok out ->
  Forall2 same_but_concepto out creators.
Proof.
  intros Hf. unfold PS.iadd_concepto.
  destruct (processed !! Z.to_nat i) as [tx|] eqn:Htx; [|discriminate].
  destruct (series_get tx PS.concepto) as [| |old]; try discriminate.
  intros [= <-].
  destruct (Forall2_lookup_l _ _ _ _ _ Hf Htx) as (r & Hr & Htxr).
  rewrite <- (list_insert_id creators (Z.to_nat i) r Hr).
  apply Forall2_insert; [assumption|]. by apply same_but_concepto_set.
Qed.

(** Whatever the labels, the rows of a pass that ends are the rows that
    start a transaction, each changed at [concepto] only. *)
Lemma merge_loop_frame todo : forall processed creators cur out,
  Forall2 same_but_concepto processed creators ->
  merge_loop todo processed cur = Ok out ->
  Forall2 same_but_concepto out (creators ++ List.filter starts_transaction todo).
Proof.
  induction todo as [|row rest IH]; intros processed creators cur out Hf Hrun.
  - injection Hrun as <-. by rewrite app_nil_r.
  - rewrite merge_loop_step in Hrun. simpl List.filter.
    unfold series_getitem in Hrun.
    destruct (repeated PS.dia index); [discriminate|].
    fold (starts_transaction row) in Hrun.
    destruct (starts_transaction row) eqn:Hnew.
    + apply IH with (creators := creators ++ [row]) in Hrun.
      * by rewrite <- app_assoc in Hrun.
      * apply Forall2_app; [assumption|]. by repeat constructor.
    + destruct (cur =? -1)%Z; [eapply IH; eassumption|].
      destruct (repeated PS.concepto index); [discriminate|].
      destruct (notna _ && _); [|eapply IH; eassumption].
      destruct (PS.iadd_concepto processed cur _) as [processed'|] eqn:Hadd;
        [|discriminate].
      simpl in Hrun. eapply IH; [|exact Hrun].
      eapply iadd_concepto_frame; eassumption.
Qed.

Hypothesis dia_once : repeated PS.dia index = false.
Hypothesis concepto_once : repeated PS.concepto index = false.

(** The step of the pass when [dia] and [concepto] label one column each. *)
Lemma merge_loop_cons row rest processed cur :
  merge_loop (row :: rest) processed cur =
  if starts_transaction row then
    merge_loop rest (processed ++ [row]) (Z.of_nat (length (processed ++ [row])) - 1)
  else if negb (cur =? -1)%Z && has_text row then
    let* processed' :=
      PS.iadd_concepto processed cur (space ++ py_str (series_get row PS.concepto)) in
    merge_loop rest processed' cur
  else merge_loop rest processed cur.
Proof.
  rewrite merge_loop_step. unfold series_getitem.
  rewrite dia_once, concepto_once.
  fold (starts_transaction row). fold (has_text row).
  destruct (starts_transaction row); [reflexivity|].
  by destruct (cur =? -1)%Z.
Qed.

(** The three moves of the pass. *)
Lemma merge_loop_new_transaction row rest processed cur :
  starts_transaction row = true ->
  merge_loop (row :: rest) processed cur =
  merge_loop rest (processed ++ [row]) (Z.of_nat (length processed)).
Proof.
  intros Hnew. rewrite merge_loop_cons, Hnew, length_app. simpl.
  f_equal. lia.
Qed.

Lemma merge_loop_continuation row rest init tx :
  starts_transaction row = false -> has_text row = true ->
  merge_loop (row :: rest) (init ++ [tx]) (Z.of_nat (length init)) =
  match series_get tx PS.concepto with
  | PyStr old =>
      merge_loop rest
        (init ++ [series_set tx PS.concepto
                    (PyStr (old ++ space ++ py_str (series_get row PS.concepto)))])
        (Z.of_nat (length init))
  | PyNone | PyNaN => Raise TypeError
  end.
Proof.
  intros Hnew Htext. rewrite merge_loop_cons, Hnew, Htext.
  destruct (Z.eqb_spec (Z.of_nat (length init)) (-1)); [lia|]. simpl negb. simpl andb.
  rewrite iadd_concepto_last.
  by destruct (series_get tx PS.concepto).
Qed.

Lemma merge_loop_dropped row rest processed cur :
  starts_transaction row = false ->
  cur = (-1)%Z \/ has_text row = false ->
  merge_loop (row :: rest) processed cur = merge_loop rest processed cur.
Proof.
  intros Hnew Hdrop. rewrite merge_loop_cons, Hnew.
  destruct Hdrop as [-> | ->]; [reflexivity|].
  by rewrite andb_false_r.
Qed.

(** The pass cannot raise when every transaction has a text to extend. *)
Lemma merge_loop_total todo : forall processed,
  Forall (fun tx => notna (series_get tx PS.concepto) = true) processed ->
  Forall (fun r => starts_transaction r = true ->
                   notna (series_get r PS.concepto) = true) todo ->
  exists out, merge_loop todo processed (Z.of_nat (length processed) - 1) = Ok out.
Proof.
  induction todo as [|row rest IH]; intros processed Hp Hall; [by eexists|].
  apply Forall_cons in Hall as [Hrow Hall].
  rewrite merge_loop_cons.
  destruct (starts_transaction row) eqn:Hnew.
  - apply IH; [|assumption]. apply Forall_app. split; [assumption|].
    repeat constructor. by apply Hrow.
  - destruct (Z.eqb_spec (Z.of_nat (length processed) - 1) (-1)) as [Hcur|Hcur];
      simpl negb; simpl andb; [by apply IH|].
    destruct (has_text row); [|by apply IH].
    destruct processed as [|tx0 processed0] using rev_ind; [simpl in Hcur; lia|].
    clear IHprocessed0.
    rewrite length_app. simpl length.
    replace (Z.of_nat (length processed0 + 1) - 1)%Z
      with (Z.of_nat (length processed0)) by lia.
    rewrite iadd_concepto_last.
    apply Forall_app in Hp as [Hp0 Htx]. apply Forall_cons in Htx as [Htx _].
    destruct (series_get tx0 PS.concepto) as [| |old] eqn:Hold; try discriminate.
    simpl.
    specialize (IH (processed0 ++ [series_set tx0 PS.concepto
      (PyStr (old ++ space ++ py_str (series_get row PS.concepto)))])).
    rewrite length_app in IH. simpl length in IH.
    replace (Z.of_nat (length processed0 + 1) - 1)%Z
      with (Z.of_nat (length processed0)) in IH by lia.
    apply IH; [|assumption].
    apply Forall_app. split; [assumption|]. repeat constructor.
    unfold series_get, series_set. by rewrite lookup_insert_eq.
Qed.

End MergeFacts.

Section MergeFrame.

Variable to_numeric_notna : pystr -> bool.

Local Abbreviation merge_concepto_lines := (PS.merge_concepto_lines to_numeric_notna).
Local Abbreviation starts_transaction := (starts_transaction to_numeric_notna).

(** C7. The merger changes nothing but [concepto]: whenever it returns a
    frame for a table with [dia] and [concepto] columns, the output rows
    are, in order, the rows of the input whose [dia] parses as a number,
    each with every column other than [concepto] as in that input row.
    It returns such a frame whenever the labels of the table are distinct
    and each of those rows has a [concepto] text. *)
Theorem merge_changes_only_concepto (df : DataFrame)
  (Hdia : str_in PS.dia (columns df) = true)
  (Hconcepto : str_in PS.concepto (columns df) = true) :
  (forall out, merge_concepto_lines df = Ok out ->
     Forall2 same_but_concepto (rows out) (List.filter starts_transaction (rows df)))
  /\ (NoDup (columns df) ->
      Forall (fun r => starts_transaction r = true ->
                       notna (series_get r PS.concepto) = true) (rows df) ->
      exists out, merge_concepto_lines df = Ok out).
Proof.
  unfold PS.merge_concepto_lines. rewrite Hdia, Hconcepto. simpl.
  split.
  - intros out Hrun.
    destruct (PS.merge_loop to_numeric_notna (columns df) (rows df) [] (-1))
      as [processed|] eqn:Hloop; [|discriminate].
    apply merge_loop_frame with (creators := []) in Hloop; [|constructor].
    simpl in Hloop, Hrun.
    destruct processed as [|o processed]; [by injection Hrun as <-|].
    destruct (has_repeated_label (columns df)); [discriminate|].
    by injection Hrun as <-.
  - intros Hdistinct Hall.
    destruct (merge_loop_total to_numeric_notna (columns df)
                (repeated_NoDup _ _ Hdistinct) (repeated_NoDup _ _ Hdistinct)
                (rows df) [] (Forall_nil_2 _) Hall) as [processed Hp].
    change (Z.of_nat (length (@nil Series)) - 1)%Z with (-1)%Z in Hp.
    rewrite Hp. simpl.
    destruct processed; [by eexists|].
    apply has_repeated_label_NoDup in Hdistinct. rewrite Hdistinct. by eexists.
Qed.

End MergeFrame.

(** * ASCII inputs: any NFKD gives the same run *)

Lemma ascii_str_spec s : ascii_str s = true <-> Forall (fun c => c < 128) s.
Proof.
  unfold ascii_str. rewrite forallb_forall, Forall_forall.
  split; intros H c Hc.
  - apply N.ltb_lt, H, list_elem_of_In, Hc.
  - apply N.ltb_lt, H, list_elem_of_In, Hc.
Qed.

Lemma forallb_agree {A} (f g : A -> bool) l :
  (forall x, In x l -> f x = g x) -> forallb f l = forallb g l.
Proof.
  induction l as [|a l IH]; intros H; [reflexivity|].
  simpl. rewrite (H a), IH; [reflexivity | | by left].
  intros x Hx. apply H. by right.
Qed.

Lemma scan_pages_cons_ok nfkd text rest k s e :
  PS.scan_pages nfkd (Ok text :: rest) k s e =
  PS.scan_pages nfkd rest (k + 1)
    match s with
    | None =>
        if contains (PS.start_marker nfkd) (PS.normalize_text nfkd (PyStr text))
        then Some k else None
    | Some _ => s
    end
    (if contains (PS.end_marker nfkd) (PS.normalize_text nfkd (PyStr text))
     then Some k else e).
Proof. reflexivity. Qed.

Section AsciiInputs.

Variables nfkd nfkd' : pystr -> pystr.
Hypothesis nfkd_ascii : forall s, Forall (fun c => c < 128) s -> nfkd s = s.
Hypothesis nfkd'_ascii : forall s, Forall (fun c => c < 128) s -> nfkd' s = s.

Lemma normalize_text_ext x :
  ascii_cell x = true -> PS.normalize_text nfkd x = PS.normalize_text nfkd' x.
Proof.
  intros Hx. apply ascii_str_spec in Hx.
  destruct x; [reflexivity|..]; unfold PS.normalize_text;
    by rewrite nfkd_ascii, nfkd'_ascii.
Qed.

Lemma required_headers_ext : PS.required_headers nfkd = PS.required_headers nfkd'.
Proof.
  unfold PS.required_headers. apply map_ext_in. intros h Hh.
  apply normalize_text_ext.
  repeat (destruct Hh as [<- | Hh]; [reflexivity|]). destruct Hh.
Qed.

Lemma markers_ext :
  PS.start_marker nfkd = PS.start_marker nfkd'
  /\ PS.end_marker nfkd = PS.end_marker nfkd'.
Proof. split; by apply normalize_text_ext. Qed.

Lemma ascii_cell_fillna x : ascii_cell x = true -> ascii_cell (fillna_empty x) = true.
Proof. by destruct x. Qed.

Lemma is_header_row_ext row :
  forallb ascii_cell row = true ->
  PS.is_header_row nfkd row = PS.is_header_row nfkd' row.
Proof.
  intros Hrow. unfold PS.is_header_row.
  rewrite required_headers_ext.
  replace (List.map (fun cell => PS.normalize_text nfkd (fillna_empty cell)) row)
    with (List.map (fun cell => PS.normalize_text nfkd' (fillna_empty cell)) row);
    [reflexivity|].
  apply map_ext_in. intros cell Hc.
  symmetry. apply normalize_text_ext, ascii_cell_fillna.
  rewrite forallb_forall in Hrow. by apply Hrow.
Qed.

Lemma header_search_ext candidates : forall i,
  ascii_table candidates = true ->
  PS.header_search nfkd i candidates = PS.header_search nfkd' i candidates.
Proof.
  induction candidates as [|row rest IH]; intros i Ha; [reflexivity|].
  simpl in Ha. apply andb_true_iff in Ha as [Hrow Hrest].
  simpl. rewrite is_header_row_ext, IH by assumption. reflexivity.
Qed.

Lemma ascii_table_take n df : ascii_table df = true -> ascii_table (take n df) = true.
Proof.
  unfold ascii_table. rewrite !forallb_forall.
  intros H row Hrow. apply H.
  apply list_elem_of_In. apply list_elem_of_In in Hrow.
  eapply subseteq_take, Hrow.
Qed.

Lemma rebase_ext df :
  ascii_table df = true -> PS.rebase nfkd df = PS.rebase nfkd' df.
Proof.
  intros Ha. unfold PS.rebase, PS.header_found_at_row.
  rewrite header_search_ext by by apply ascii_table_take.
  destruct (_ =? -1)%Z; [reflexivity|].
  do 2 f_equal. apply map_ext_in. intros cell Hc.
  apply normalize_text_ext.
  destruct (nth_in_or_default
              (Z.to_nat (PS.header_search nfkd' 0 (take (Nat.min 5 (length df)) df)))
              df []) as [Hin | Hd].
  - unfold ascii_table in Ha. rewrite forallb_forall in Ha.
    specialize (Ha _ Hin). rewrite forallb_forall in Ha. by apply Ha.
  - rewrite Hd in Hc. destruct Hc.
Qed.

Lemma collect_tables_ext tables : forall acc,
  forallb ascii_table tables = true ->
  PS.collect_tables nfkd tables acc = PS.collect_tables nfkd' tables acc.
Proof.
  induction tables as [|df rest IH]; intros acc Ha; [reflexivity|].
  simpl in Ha. apply andb_true_iff in Ha as [Hdf Hrest].
  simpl. rewrite rebase_ext by assumption.
  destruct (df_empty df); [by apply IH|].
  destruct (PS.rebase nfkd' df); by apply IH.
Qed.

Lemma scan_pages_ext pages : forall k s e,
  forallb ascii_page pages = true ->
  PS.scan_pages nfkd pages k s e = PS.scan_pages nfkd' pages k s e.
Proof.
  induction pages as [|page rest IH]; intros k s e Ha; [reflexivity|].
  simpl in Ha. apply andb_true_iff in Ha as [Hp Hrest].
  destruct page as [text|err]; [|reflexivity].
  rewrite !scan_pages_cons_ok. destruct markers_ext as [-> ->].
  rewrite (normalize_text_ext (PyStr text)) by exact Hp.
  by apply IH.
Qed.

Lemma find_transaction_tables_ext pdf :
  match PS.fitz_open pdf with
  | Ok pages => forallb ascii_page pages = true
  | Raise _ => True
  end ->
  (forall a b tables, PS.camelot_read_pdf pdf a b = Ok tables ->
     forallb ascii_table tables = true) ->
  PS.find_transaction_tables nfkd pdf = PS.find_transaction_tables nfkd' pdf.
Proof.
  intros Hpages Htables. unfold PS.find_transaction_tables, PS.page_range.
  destruct (PS.fitz_open pdf) as [pages|]; [|reflexivity].
  simpl. rewrite scan_pages_ext by assumption.
  destruct (PS.scan_pages nfkd' pages 1 None None) as [r|]; [|reflexivity].
  destruct (PS.valid_range r) as [[a b]|]; [|reflexivity].
  destruct (PS.camelot_read_pdf pdf a b) as [tables|] eqn:Hc; [|reflexivity].
  apply collect_tables_ext. eapply Htables, Hc.
Qed.

Lemma split_on_from_ascii sep s : forall cur,
  ascii_str cur = true -> ascii_str s = true ->
  forallb ascii_str (split_on_from sep cur s) = true.
Proof.
  induction s as [|c s IH]; intros cur Hcur Hs; simpl.
  - by rewrite Hcur.
  - simpl in Hs. apply andb_true_iff in Hs as [Hc Hs].
    destruct (c =? sep).
    + simpl. rewrite Hcur. by apply IH.
    + apply IH; [|assumption].
      unfold ascii_str. rewrite forallb_app. simpl.
      by rewrite Hc, andb_true_r.
Qed.

Lemma apply_rules_loop_ext nc rules :
  forallb ascii_rule rules = true ->
  PS.apply_rules_loop nfkd nc rules = PS.apply_rules_loop nfkd' nc rules.
Proof.
  induction rules as [|r rules IH]; intros Ha; [reflexivity|].
  simpl in Ha. apply andb_true_iff in Ha as [Hr Hrules].
  simpl. rewrite IH by assumption.
  replace (PS.all_keywords_in nfkd (split_on comma (py_str (PS.Keywords r))) nc)
    with (PS.all_keywords_in nfkd' (split_on comma (py_str (PS.Keywords r))) nc);
    [reflexivity|].
  unfold PS.all_keywords_in. apply forallb_agree. intros kw Hkw.
  f_equal. symmetry. apply normalize_text_ext.
  pose proof (split_on_from_ascii comma (py_str (PS.Keywords r)) [] eq_refl Hr) as Hall.
  rewrite forallb_forall in Hall. by apply Hall.
Qed.

Lemma apply_rules_ext concepto rules :
  ascii_cell concepto = true -> forallb ascii_rule rules = true ->
  PS.apply_rules nfkd concepto rules = PS.apply_rules nfkd' concepto rules.
Proof.
  intros Hc Hr. unfold PS.apply_rules.
  by rewrite (normalize_text_ext concepto), apply_rules_loop_ext.
Qed.

End AsciiInputs.

(** * The two scripts *)

(** C8. [normalize_text] and [merge_concepto_lines] of debug.py return
    what those of process_statements.py return, on every input. *)
Theorem debug_agrees_with_process_statements :
  (forall nfkd (x : pyval), Debug.normalize_text nfkd x = PS.normalize_text nfkd x)
  /\ (forall to_numeric_notna (df : DataFrame),
        Debug.merge_concepto_lines to_numeric_notna df
        = PS.merge_concepto_lines to_numeric_notna df).
Proof.
  split; [reflexivity|].
  intros to_numeric_notna df.
  assert (Hloop : forall index todo processed cur,
    Debug.merge_loop to_numeric_notna index todo processed cur
    = PS.merge_loop to_numeric_notna index todo processed cur).
  { intros index. induction todo as [|row rest IH]; intros processed cur; [reflexivity|].
    cbn [Debug.merge_loop PS.merge_loop].
    change Debug.is_new_transaction with PS.is_new_transaction.
    change Debug.iadd_concepto with PS.iadd_concepto.
    change Debug.dia with PS.dia. change Debug.concepto with PS.concepto.
    destruct (series_getitem index row PS.dia) as [d|]; [|reflexivity].
    cbv zeta.
    destruct (PS.is_new_transaction _ d); [apply IH|].
    destruct (cur =? -1)%Z; [apply IH|].
    destruct (series_getitem index row PS.concepto) as [c|]; [|reflexivity].
    destruct (_ && _); [|apply IH].
    destruct (PS.iadd_concepto processed cur _); [apply IH | reflexivity]. }
  unfold Debug.merge_concepto_lines, PS.merge_concepto_lines.
  rewrite Hloop. reflexivity.
Qed.

(** * Header detection and merging together *)

Section Pipeline.

Variable nfkd : pystr -> pystr.
Hypothesis nfkd_ascii : forall s, Forall (fun c => c < 128) s -> nfkd s = s.
Variable to_numeric_notna : pystr -> bool.

Local Abbreviation merge_concepto_lines := (PS.merge_concepto_lines to_numeric_notna).

Lemma merge_pass_through (df : DataFrame) :
  ~ In PS.dia (columns df) \/ ~ In PS.concepto (columns df) ->
  merge_concepto_lines df = Ok df.
Proof.
  intros Hmiss. unfold PS.merge_concepto_lines.
  destruct (str_in PS.dia (columns df)) eqn:Hd; [|reflexivity].
  destruct (str_in PS.concepto (columns df)) eqn:Hc; [|reflexivity].
  apply str_in_spec in Hd, Hc. tauto.
Qed.

Lemma merge_present (df : DataFrame) :
  str_in PS.dia (columns df) = true -> str_in PS.concepto (columns df) = true ->
  merge_concepto_lines df =
  let* processed_rows := PS.merge_loop to_numeric_notna (columns df) (rows df) [] (-1) in
  match processed_rows with
  | [] => Ok empty_frame
  | _ =>
      if has_repeated_label (columns df) then Raise InvalidIndexError
      else Ok {| columns := columns df; rows := processed_rows |}
  end.
Proof. intros Hd Hc. unfold PS.merge_concepto_lines. by rewrite Hd, Hc. Qed.

(** C10. Passing header detection does not give columns named exactly
    [dia] and [concepto]: the table whose header row is the single cell
    "Dia Concepto Cargos Abonos Saldo" passes, its only label is the
    whole normalized cell, and the merger returns the frame built from it
    as it is, its two data rows not merged. *)
Theorem header_found_without_exact_labels :
  exists (raw : RawTable) (t : Table),
    df_empty raw = false
    /\ PS.is_header_row nfkd (nth 0 raw []) = true
    /\ PS.rebase nfkd raw = Some t
    /\ PS.collect_tables nfkd [raw] [] = [t]
    /\ ~ In PS.dia (labels t)
    /\ ~ In PS.concepto (labels t)
    /\ columns (concat [t]) = labels t
    /\ length (rows (concat [t])) = 2%nat
    /\ merge_concepto_lines (concat [t]) = Ok (concat [t]).
Proof.
  exists one_cell_header, one_cell_table.
  assert (Hreb : PS.rebase nfkd one_cell_header = Some one_cell_table).
  { by rewrite (rebase_ext nfkd nfkd_latin nfkd_ascii nfkd_latin_ascii). }
  split; [reflexivity|].
  split.
  { by rewrite (is_header_row_ext nfkd nfkd_latin nfkd_ascii nfkd_latin_ascii). }
  split; [exact Hreb|].
  split.
  { simpl. by rewrite Hreb. }
  assert (Hd : ~ In PS.dia (labels one_cell_table)).
  { intros [Heq | []]. discriminate Heq. }
  assert (Hc : ~ In PS.concepto (labels one_cell_table)).
  { intros [Heq | []]. discriminate Heq. }
  split; [exact Hd|]. split; [exact Hc|].
  split; [reflexivity|]. split; [reflexivity|].
  apply merge_pass_through. left. exact Hd.
Qed.

Hypothesis one_is_numeric : to_numeric_notna (u "1") = true.
Hypothesis blank_is_not_numeric : to_numeric_notna (u "") = false.

(** C1, where the code departs from it.  The frame of a document with
    the two tables above has a numeric-[dia] row whose [concepto] is
    missing, followed by a continuation row with a text: the merger
    raises [TypeError] instead of appending, and the run over the files
    stops with that exception. *)
Theorem merge_raises_on_missing_concepto :
  PS.find_transaction_tables nfkd statement_two_tables <> []
  /\ concat (PS.find_transaction_tables nfkd statement_two_tables) = frame_two_tables
  /\ merge_concepto_lines frame_two_tables = Raise TypeError
  /\ forall rules,
       PS.process_files nfkd to_numeric_notna rules [statement_two_tables] []
       = Raise TypeError.
Proof.
  assert (Hft : PS.find_transaction_tables nfkd statement_two_tables
                = PS.find_transaction_tables nfkd_latin statement_two_tables).
  { apply find_transaction_tables_ext;
      [exact nfkd_ascii | exact nfkd_latin_ascii | reflexivity |].
    intros a b tables [= <-]. reflexivity. }
  assert (Hmerge : merge_concepto_lines frame_two_tables = Raise TypeError).
  { rewrite merge_present by reflexivity.
    unfold frame_two_tables, rows, columns.
    rewrite merge_loop_new_transaction by
      (first [exact one_is_numeric | reflexivity]).
    rewrite merge_loop_continuation by
      (first [exact blank_is_not_numeric | reflexivity]).
    reflexivity. }
  split; [rewrite Hft; discriminate|].
  split; [rewrite Hft; by vm_compute|].
  split; [exact Hmerge|].
  intros rules. cbn [PS.process_files]. rewrite Hft.
  let tables := eval vm_compute in
    (PS.find_transaction_tables nfkd_latin statement_two_tables) in
  change (PS.find_transaction_tables nfkd_latin statement_two_tables) with tables.
  cbv iota.
  replace (pd_concat _) with (Ok frame_two_tables) by (by vm_compute).
  cbn [bind]. by rewrite Hmerge.
Qed.

End Pipeline.

(** * Concrete runs *)

(** The examples of the specification, with [nfkd_latin] for NFKD and
    [digits_only] for the numeric parser. *)

Example merge_three_rows :
  PS.merge_concepto_lines digits_only statement_rows = Ok statement_merged.
Proof. by vm_compute. Qed.

Example merge_drops_orphan :
  PS.merge_concepto_lines digits_only
    {| columns := [u "dia"; u "concepto"];
       rows := [ {[ u "dia" := PyStr (u ""); u "concepto" := PyStr (u "ORPHAN") ]};
                 {[ u "dia" := PyStr (u "1"); u "concepto" := PyStr (u "PAGO") ]} ] |}
  = Ok {| columns := [u "dia"; u "concepto"];
          rows := [ {[ u "dia" := PyStr (u "1"); u "concepto" := PyStr (u "PAGO") ]} ] |}.
Proof. by vm_compute. Qed.

Example merge_empty_input :
  PS.merge_concepto_lines digits_only {| columns := [u "dia"; u "concepto"]; rows := [] |}
  = Ok empty_frame.
Proof. reflexivity. Qed.

Example apply_rules_rulebook :
  PS.apply_rules nfkd_latin (PyStr (u "PAGO A PROVEEDOR X")) rulebook
    = PyStr (u "Pago a Proveedor")
  /\ PS.apply_rules nfkd_latin (PyStr (u "PAGO SERVICIO")) rulebook
    = PyStr (u "Pago Generico")
  /\ PS.apply_rules nfkd_latin (PyStr (u "DEPOSITO")) rulebook
    = PyStr (u "DEPOSITO")
  /\ PS.apply_rules nfkd_latin (PyStr (u "empagotado")) rulebook
    = PyStr (u "Pago Generico").
Proof. repeat split; by vm_compute. Qed.

(** The same for every NFKD that leaves ASCII text alone. *)
Example apply_rules_rulebook_any_nfkd nfkd
  (nfkd_ascii : forall s, Forall (fun c => c < 128) s -> nfkd s = s) :
  PS.apply_rules nfkd (PyStr (u "PAGO A PROVEEDOR X")) rulebook
    = PyStr (u "Pago a Proveedor")
  /\ PS.apply_rules nfkd (PyStr (u "PAGO SERVICIO")) rulebook
    = PyStr (u "Pago Generico")
  /\ PS.apply_rules nfkd (PyStr (u "DEPOSITO")) rulebook = PyStr (u "DEPOSITO").
Proof.
  rewrite !(apply_rules_ext nfkd nfkd_latin nfkd_ascii nfkd_latin_ascii) by reflexivity.
  repeat split; by vm_compute.
Qed.

(** C2 on the rulebook of the specification: the first rule has the two
    keywords "pago" and "proveedor", and "PAGO A PROVEEDOR X", which it
    matches, gets its template. *)
Lemma apply_rules_first_match_witness :
  rule_keywords {| PS.Priority := 1; PS.Keywords := PyStr (u "pago,proveedor");
                   PS.Output_Template := PyStr (u "Pago a Proveedor") |}
  = [u "pago"; u "proveedor"]
  /\ rule_matches nfkd_latin (PyStr (u "PAGO A PROVEEDOR X"))
       {| PS.Priority := 1; PS.Keywords := PyStr (u "pago,proveedor");
          PS.Output_Template := PyStr (u "Pago a Proveedor") |}
  /\ PS.apply_rules nfkd_latin (PyStr (u "PAGO A PROVEEDOR X")) rulebook
     = PyStr (u "Pago a Proveedor").
Proof.
  destruct (apply_rules_first_match nfkd_latin (PyStr (u "PAGO A PROVEEDOR X")) rulebook)
    as (Hfirst & Htest & _ & Hkeywords).
  assert (Hks : rule_keywords
                  {| PS.Priority := 1; PS.Keywords := PyStr (u "pago,proveedor");
                     PS.Output_Template := PyStr (u "Pago a Proveedor") |}
                = [u "pago"; u "proveedor"]).
  { symmetry. apply Hkeywords.
    split; [discriminate|]. split; [|reflexivity].
    repeat constructor; intros Hin; simpl in Hin;
      repeat (destruct Hin as [Hin | Hin]; [discriminate Hin|]); exact Hin. }
  assert (Hr : rule_matches nfkd_latin (PyStr (u "PAGO A PROVEEDOR X"))
                 {| PS.Priority := 1; PS.Keywords := PyStr (u "pago,proveedor");
                    PS.Output_Template := PyStr (u "Pago a Proveedor") |}).
  { apply Htest. reflexivity. }
  split; [exact Hks|]. split; [exact Hr|].
  destruct Hfirst as [(pre & r & post & Hrules & Hpre & _ & Happ & _) | (Hnone & _)].
  - destruct pre as [|p pre].
    + injection Hrules as <- _. exact Happ.
    + injection Hrules as <- _. apply Forall_cons in Hpre as [Hp _]. contradiction.
  - apply Forall_cons in Hnone as [Hp _]. contradiction.
Defined.

(** C3 on a table whose header is its third row, written with an accent,
    and on the document that holds it. *)
Lemma header_detection_witness :
  df_empty header_in_third_row = false
  /\ PS.header_found_at_row nfkd_latin header_in_third_row = 2%Z
  /\ PS.rebase nfkd_latin header_in_third_row
     = Some {| labels := [u "dia"; u "concepto"; u "cargos"; u "abonos"; u "saldo"];
               cells := drop 3 header_in_third_row |}
  /\ PS.collect_tables nfkd_latin [header_in_third_row] []
     = [ {| labels := [u "dia"; u "concepto"; u "cargos"; u "abonos"; u "saldo"];
            cells := drop 3 header_in_third_row |} ]
  /\ PS.find_transaction_tables nfkd_latin statement_one_table
     = [ {| labels := [u "dia"; u "concepto"; u "cargos"; u "abonos"; u "saldo"];
            cells := drop 3 header_in_third_row |} ].
Proof.
  split; [reflexivity|].
  destruct (header_detection nfkd_latin header_in_third_row eq_refl)
    as (_ & _ & [(h & row & _ & Hrow & _ & _ & Hh & Hreb & _ & Hloop & Hfind)
                | (_ & Hh & _)] & _).
  - assert (h = 2%nat) as ->.
    { apply Nat2Z.inj. rewrite <- Hh. reflexivity. }
    injection Hrow as <-.
    split; [exact Hh|]. split; [rewrite Hreb; reflexivity|].
    split; [rewrite Hloop; reflexivity|].
    rewrite (Hfind statement_one_table 1%Z 2%Z [] [] eq_refl ltac:(lia) eq_refl).
    reflexivity.
  - discriminate Hh.
Defined.

Example header_not_in_first_five_rows :
  PS.rebase nfkd_latin
    ([ [PyStr (u "a")]; [PyStr (u "b")]; [PyStr (u "c")]; [PyStr (u "d")];
       [PyStr (u "e")]; [PyStr (u "dia concepto cargos abonos saldo")];
       [PyStr (u "1 PAGO")] ])
  = None.
Proof. reflexivity. Qed.

(** C4 on six pages: the start marker on page 3, the end marker on pages 3
    and 5 (there with an accent). *)
Lemma page_range_first_start_last_end_witness :
  PS.page_range nfkd_latin (readable six_pages (fun _ _ => Ok []))
  = Ok (Some 3%Z, Some 5%Z).
Proof.
  destruct (page_range_first_start_last_end nfkd_latin six_pages (fun _ _ => Ok []))
    as (s & e & Hr & _ & _ & Hpart).
  assert (Hstart : forall j t, six_pages !! j = Some t ->
            (has_start nfkd_latin t = true <-> j = 2%nat)).
  { intros j t Hj.
    do 6 (destruct j as [|j];
          [injection Hj as <-; vm_compute; split; intros H;
           first [reflexivity | discriminate H]|]).
    discriminate Hj. }
  assert (Hend : forall j t, six_pages !! j = Some t ->
            (has_end nfkd_latin t = true <-> j = 2%nat \/ j = 4%nat)).
  { intros j t Hj.
    do 6 (destruct j as [|j];
          [injection Hj as <-; vm_compute; split; intros H;
           first [reflexivity | discriminate H | by left | by right
                 | by destruct H as [H | H]; discriminate H]|]).
    discriminate Hj. }
  assert (Hlen : (5 <= length six_pages)%nat) by (simpl; lia).
  destruct (Hpart Hstart Hend Hlen) as (-> & -> & _).
  exact Hr.
Defined.

Example page_range_not_found :
  PS.find_transaction_tables nfkd_latin
    (readable [u "saldo minimo requerido"; u "saldo inicial"]
       (fun _ _ => Ok [header_in_third_row])) = []
  /\ PS.find_transaction_tables nfkd_latin
       (readable [u "saldo inicial"] (fun _ _ => Ok [header_in_third_row])) = []
  /\ PS.find_transaction_tables nfkd_latin
       (readable [u "saldo minimo requerido"] (fun _ _ => Ok [header_in_third_row])) = []
  /\ PS.find_transaction_tables nfkd_latin
       (readable [u "saldo inicial"; u "saldo minimo requerido"]
          (fun _ _ => Ok [header_in_third_row])) <> [].
Proof. repeat split; by vm_compute. Qed.

Example merge_ledger_rows :
  PS.merge_concepto_lines digits_only ledger_rows = Ok ledger_merged.
Proof. by vm_compute. Qed.

(** C7 on the three rows of the specification, with the five columns of a
    statement: the merged rows keep [dia], [cargos], [abonos] and [saldo]
    of the rows that start the transactions. *)
Lemma merge_changes_only_concepto_witness :
  str_in PS.dia (columns ledger_rows) = true
  /\ str_in PS.concepto (columns ledger_rows) = true
  /\ NoDup (columns ledger_rows)
  /\ PS.merge_concepto_lines digits_only ledger_rows = Ok ledger_merged
  /\ Forall2 same_but_concepto (rows ledger_merged)
       (List.filter (starts_transaction digits_only) (rows ledger_rows))
  /\ exists out, PS.merge_concepto_lines digits_only ledger_rows = Ok out.
Proof.
  split; [reflexivity|]. split; [reflexivity|].
  split; [apply has_repeated_label_NoDup; reflexivity|].
  split; [exact merge_ledger_rows|].
  split.
  - exact (proj1 (merge_changes_only_concepto digits_only ledger_rows eq_refl eq_refl)
             ledger_merged merge_ledger_rows).
  - apply (proj2 (merge_changes_only_concepto digits_only ledger_rows eq_refl eq_refl)).
    + apply has_repeated_label_NoDup. reflexivity.
    + repeat (constructor; [intros _; reflexivity|]). constructor.
Defined.

(** C9 on a rulebook that ends with a rule without keywords. *)
Lemma empty_keywords_rule_matches_all_witness :
  nfkd_latin [] = []
  /\ PS.apply_rules nfkd_latin (PyStr (u "DEPOSITO")) rulebook_with_catch_all
     = PyStr (u "Otros")
  /\ rule_matches nfkd_latin (PyStr (u "DEPOSITO")) catch_all.
Proof.
  split; [reflexivity|]. split; [by vm_compute|].
  refine (proj1 (proj2 (empty_keywords_rule_matches_all nfkd_latin eq_refl
    (PyStr (u "DEPOSITO")) rulebook_with_catch_all catch_all _ eq_refl))).
  right. right. left. reflexivity.
Defined.

(** C10 with [nfkd_latin] and [digits_only]. *)
Lemma header_found_without_exact_labels_witness :
  PS.rebase nfkd_latin one_cell_header = Some one_cell_table
  /\ exists (raw : RawTable) (t : Table),
       df_empty raw = false
       /\ PS.is_header_row nfkd_latin (nth 0 raw []) = true
       /\ PS.rebase nfkd_latin raw = Some t
       /\ PS.collect_tables nfkd_latin [raw] [] = [t]
       /\ ~ In PS.dia (labels t)
       /\ ~ In PS.concepto (labels t)
       /\ columns (concat [t]) = labels t
       /\ length (rows (concat [t])) = 2%nat
       /\ PS.merge_concepto_lines digits_only (concat [t]) = Ok (concat [t]).
Proof.
  split; [reflexivity|].
  exact (header_found_without_exact_labels nfkd_latin nfkd_latin_ascii digits_only).
Defined.

(** The failing run of C1 with [nfkd_latin] and [digits_only]. *)
Lemma merge_raises_on_missing_concepto_witness :
  digits_only (u "1") = true
  /\ digits_only (u "") = false
  /\ PS.merge_concepto_lines digits_only frame_two_tables = Raise TypeError.
Proof.
  split; [reflexivity|]. split; [reflexivity|].
  exact (proj1 (proj2 (proj2 (merge_raises_on_missing_concepto
    nfkd_latin nfkd_latin_ascii digits_only eq_refl eq_refl)))).
Defined.

(** * The row merger as a pass over runs of rows *)

Lemma dia_is_not_concepto : PS.dia <> PS.concepto.
Proof. discriminate. Qed.

Lemma starts_transaction_frame to_numeric_notna o r :
  same_but_concepto o r ->
  starts_transaction to_numeric_notna o = starts_transaction to_numeric_notna r.
Proof.
  intros H. unfold starts_transaction, series_get.
  by rewrite (H PS.dia dia_is_not_concepto).
Qed.

Section MergePass.

Variable to_numeric_notna : pystr -> bool.
Variable index : list label.
Hypothesis dia_once : repeated PS.dia index = false.
Hypothesis concepto_once : repeated PS.concepto index = false.

Local Abbreviation merge_loop := (PS.merge_loop to_numeric_notna index).
Local Abbreviation starts_transaction := (starts_transaction to_numeric_notna).
Local Abbreviation is_run := (is_run to_numeric_notna).
Local Abbreviation merge_loop_cons :=
  (merge_loop_cons to_numeric_notna index dia_once concepto_once).
Local Abbreviation merge_loop_new_transaction :=
  (merge_loop_new_transaction to_numeric_notna index dia_once concepto_once).
Local Abbreviation merge_loop_continuation :=
  (merge_loop_continuation to_numeric_notna index dia_once concepto_once).
Local Abbreviation merge_loop_dropped :=
  (merge_loop_dropped to_numeric_notna index dia_once concepto_once).

Lemma iadd_concepto_length processed i s out :
  PS.iadd_concepto processed i s = Ok out -> length out = length processed.
Proof.
  unfold PS.iadd_concepto.
  destruct (processed !! Z.to_nat i) as [tx|]; [|discriminate].
  destruct (series_get tx PS.concepto); try discriminate.
  intros [= <-]. apply length_insert.
Qed.

(** The pass over [a ++ b] is the pass over [a] followed by the pass over
    [b] from the state that [a] leaves. *)
Lemma merge_loop_app a b : forall processed,
  match merge_loop a processed (Z.of_nat (length processed) - 1) with
  | Ok processed' =>
      merge_loop (a ++ b) processed (Z.of_nat (length processed) - 1)
      = merge_loop b processed' (Z.of_nat (length processed') - 1)
  | Raise e =>
      merge_loop (a ++ b) processed (Z.of_nat (length processed) - 1) = Raise e
  end.
Proof.
  induction a as [|row a IH]; intros processed; [reflexivity|].
  change ((row :: a) ++ b) with (row :: (a ++ b)).
  rewrite !merge_loop_cons.
  destruct (starts_transaction row); [apply IH|].
  destruct (negb _ && has_text row); [|apply IH].
  destruct (PS.iadd_concepto processed _ _) as [processed'|] eqn:Hadd; [|reflexivity].
  simpl. rewrite <- (iadd_concepto_length _ _ _ _ Hadd). apply IH.
Qed.

Lemma merge_loop_state (todo : list Series) init tx :
  merge_loop todo (init ++ [tx]) (Z.of_nat (length init))
  = merge_loop todo (init ++ [tx]) (Z.of_nat (length (init ++ [tx])) - 1).
Proof. rewrite length_app. simpl. f_equal. lia. Qed.

Lemma merge_loop_orphans orphans :
  Forall (fun r => starts_transaction r = false) orphans ->
  merge_loop orphans [] (-1) = Ok [].
Proof.
  induction 1 as [|row orphans Hrow _ IH]; [reflexivity|].
  rewrite merge_loop_dropped; [exact IH | exact Hrow | by left].
Qed.

Lemma notna_append_text tx row :
  notna (series_get tx PS.concepto) = true ->
  notna (series_get (append_text tx row) PS.concepto) = true.
Proof.
  unfold append_text. destruct (series_get tx PS.concepto) eqn:Htx; try discriminate.
  intros _. unfold series_get, series_set. by rewrite lookup_insert_eq.
Qed.

(** The continuation rows of a run are absorbed by its first row. *)
Lemma merge_loop_run conts : forall init tx,
  Forall (fun r => starts_transaction r = false) conts ->
  mergeable (tx, conts) ->
  merge_loop conts (init ++ [tx]) (Z.of_nat (length init))
  = Ok (init ++ [absorb tx conts]).
Proof.
  induction conts as [|row conts IH]; intros init tx Hconts Hm; [reflexivity|].
  apply Forall_cons in Hconts as [Hrow Hconts].
  change (absorb tx (row :: conts))
    with (absorb (if has_text row then append_text tx row else tx) conts).
  unfold mergeable in Hm. simpl fst in Hm. simpl snd in Hm.
  destruct (has_text row) eqn:Htext.
  - destruct Hm as [Htx | Hno].
    + rewrite merge_loop_continuation by assumption.
      pose proof (notna_append_text tx row Htx) as Htx'.
      unfold append_text in *.
      destruct (series_get tx PS.concepto) eqn:Hold; try discriminate.
      apply IH; [assumption | by left].
    + apply Forall_cons in Hno as [Hno _]. congruence.
  - rewrite merge_loop_dropped by (first [assumption | by right]).
    apply IH; [assumption|].
    destruct Hm as [Htx | Hno]; [by left | right].
    by apply Forall_cons in Hno as [_ Hno].
Qed.

Lemma merge_loop_runs runs : forall init,
  Forall is_run runs -> Forall mergeable runs ->
  merge_loop (flat_map run_rows runs) init (Z.of_nat (length init) - 1)
  = Ok (init ++ List.map (fun g => absorb (fst g) (snd g)) runs).
Proof.
  induction runs as [|[tx conts] runs IH]; intros init Hruns Hm.
  - simpl. by rewrite app_nil_r.
  - apply Forall_cons in Hruns as [[Htx Hconts] Hruns].
    apply Forall_cons in Hm as [Hg Hm]. simpl in Htx, Hconts.
    change (flat_map run_rows ((tx, conts) :: runs))
      with (tx :: (conts ++ flat_map run_rows runs)).
    rewrite merge_loop_new_transaction by exact Htx.
    rewrite merge_loop_state.
    pose proof (merge_loop_app conts (flat_map run_rows runs) (init ++ [tx])) as Happ.
    rewrite <- merge_loop_state in Happ.
    rewrite (merge_loop_run conts init tx Hconts Hg) in Happ.
    rewrite Happ, IH by assumption.
    simpl. by rewrite <- app_assoc.
Qed.

(** Every sequence of rows is a block of rows before the first
    transaction followed by runs. *)
Lemma rows_split_in_runs (todo : list Series) :
  exists orphans runs,
    todo = orphans ++ flat_map run_rows runs
    /\ Forall (fun r => starts_transaction r = false) orphans
    /\ Forall is_run runs.
Proof.
  induction todo as [|row todo (orphans & runs & -> & Ho & Hr)].
  - exists [], []. repeat split; constructor.
  - destruct (starts_transaction row) eqn:Hrow.
    + exists [], ((row, orphans) :: runs). repeat split.
      * constructor.
      * constructor; [by split | assumption].
    + exists (row :: orphans), runs. repeat split; [|assumption].
      by constructor.
Qed.

(** The only exception of the pass is [TypeError], and it is raised at a
    continuation row with a text whose transaction has no [concepto]. *)
Lemma merge_loop_raise_inv todo : forall processed e,
  merge_loop todo processed (Z.of_nat (length processed) - 1) = Raise e ->
  e = TypeError
  /\ ((exists tx conts row post,
         last processed = Some tx
         /\ notna (series_get tx PS.concepto) = false
         /\ todo = conts ++ row :: post
         /\ Forall (fun r => starts_transaction r = false) conts
         /\ starts_transaction row = false /\ has_text row = true)
      \/ (exists pre tx conts row post,
            todo = pre ++ tx :: conts ++ row :: post
            /\ starts_transaction tx = true
            /\ notna (series_get tx PS.concepto) = false
            /\ Forall (fun r => starts_transaction r = false) conts
            /\ starts_transaction row = false /\ has_text row = true)).
Proof.
  induction todo as [|row todo IH]; intros processed e Hrun; [discriminate|].
  rewrite merge_loop_cons in Hrun.
  destruct (starts_transaction row) eqn:Hrow.
  - apply IH in Hrun as [-> [(tx & conts & r & post & Hlast & Htx & -> & Hc & Hr & Ht)
                            | (pre & tx & conts & r & post & -> & Hs & Htx & Hc & Hr & Ht)]].
    + split; [reflexivity|]. right.
      rewrite last_snoc in Hlast. injection Hlast as <-.
      exists [], row, conts, r, post. by repeat split.
    + split; [reflexivity|]. right.
      exists (row :: pre), tx, conts, r, post. by repeat split.
  - destruct (Z.eqb_spec (Z.of_nat (length processed) - 1) (-1)) as [Hcur|Hcur];
      simpl negb in Hrun; simpl andb in Hrun.
    + apply IH in Hrun as [-> [(tx & conts & r & post & Hlast & Htx & -> & Hc & Hr & Ht)
                              | (pre & tx & conts & r & post & -> & Hs & Htx & Hc & Hr & Ht)]].
      * destruct processed; [discriminate Hlast | simpl in Hcur; lia].
      * split; [reflexivity|]. right.
        exists (row :: pre), tx, conts, r, post. by repeat split.
    + destruct (has_text row) eqn:Htext.
      * destruct processed as [|tx0 init _] using rev_ind; [simpl in Hcur; lia|].
        assert (Hidx : (Z.of_nat (length (init ++ [tx0])) - 1 = Z.of_nat (length init))%Z)
          by (rewrite length_app; simpl; lia).
        rewrite Hidx, iadd_concepto_last in Hrun.
        destruct (series_get tx0 PS.concepto) as [| |old] eqn:Hold.
        -- injection Hrun as <-. split; [reflexivity|]. left.
           exists tx0, [], row, todo. rewrite last_snoc, Hold.
           by repeat split.
        -- injection Hrun as <-. split; [reflexivity|]. left.
           exists tx0, [], row, todo. rewrite last_snoc, Hold.
           by repeat split.
        -- simpl in Hrun. rewrite merge_loop_state in Hrun.
           apply IH in Hrun as [-> [(tx & conts & r & post & Hlast & Htx & -> & Hc & Hr & Ht)
                              | (pre & tx & conts & r & post & -> & Hs & Htx & Hc & Hr & Ht)]].
           ++ rewrite last_snoc in Hlast. injection Hlast as <-.
              unfold series_get, series_set in Htx.
              rewrite lookup_insert_eq in Htx. discriminate Htx.
           ++ split; [reflexivity|]. right.
              exists (row :: pre), tx, conts, r, post. by repeat split.
      * apply IH in Hrun as [-> [(tx & conts & r & post & Hlast & Htx & -> & Hc & Hr & Ht)
                              | (pre & tx & conts & r & post & -> & Hs & Htx & Hc & Hr & Ht)]].
        -- split; [reflexivity|]. left.
           exists tx, (row :: conts), r, post. repeat split; try assumption.
           by constructor.
        -- split; [reflexivity|]. right.
           exists (row :: pre), tx, conts, r, post. by repeat split.
Qed.

Lemma merge_loop_missing_concepto conts : forall init tx row post,
  notna (series_get tx PS.concepto) = false ->
  Forall (fun r => starts_transaction r = false) conts ->
  starts_transaction row = false -> has_text row = true ->
  merge_loop (conts ++ row :: post) (init ++ [tx]) (Z.of_nat (length init))
  = Raise TypeError.
Proof.
  induction conts as [|c conts IH]; intros init tx row post Htx Hconts Hrow Htext.
  - change ([] ++ row :: post) with (row :: post).
    rewrite merge_loop_continuation by assumption.
    by destruct (series_get tx PS.concepto).
  - apply Forall_cons in Hconts as [Hc Hconts].
    change ((c :: conts) ++ row :: post) with (c :: (conts ++ row :: post)).
    destruct (has_text c) eqn:Hct.
    + rewrite merge_loop_continuation by assumption.
      by destruct (series_get tx PS.concepto).
    + rewrite merge_loop_dropped by (first [assumption | by right]).
      by apply IH.
Qed.

Lemma merge_loop_all_new (todo : list Series) : forall processed cur,
  Forall (fun r => starts_transaction r = true) todo ->
  merge_loop todo processed cur = Ok (processed ++ todo).
Proof.
  induction todo as [|row todo IH]; intros processed cur Hall.
  - by rewrite app_nil_r.
  - apply Forall_cons in Hall as [Hrow Hall].
    rewrite merge_loop_new_transaction, IH by assumption.
    by rewrite <- app_assoc.
Qed.

End MergePass.

Section MergeRuns.

Variable to_numeric_notna : pystr -> bool.

Local Abbreviation merge_loop := (PS.merge_loop to_numeric_notna).
Local Abbreviation merge_concepto_lines := (PS.merge_concepto_lines to_numeric_notna).
Local Abbreviation starts_transaction := (starts_transaction to_numeric_notna).
Local Abbreviation is_run := (is_run to_numeric_notna).

(** X1. The merger on a frame with both columns and no label repeated.
    The rows split into the rows before the first numeric [dia] and runs,
    each a numeric-[dia] row with the rows up to the next one.  The rows
    before the first run are dropped and every run becomes one
    transaction, in order: its first row with the texts of its
    continuation rows appended in order, each after a single space. *)
Theorem merge_concepto_lines_runs (df : DataFrame)
  (Hdistinct : NoDup (columns df))
  (Hdia : str_in PS.dia (columns df) = true)
  (Hconcepto : str_in PS.concepto (columns df) = true) :
  (exists orphans runs,
     rows df = orphans ++ flat_map run_rows runs
     /\ Forall (fun r => starts_transaction r = false) orphans
     /\ Forall is_run runs)
  /\ forall orphans runs,
       rows df = orphans ++ flat_map run_rows runs ->
       Forall (fun r => starts_transaction r = false) orphans ->
       Forall is_run runs ->
       Forall mergeable runs ->
       merge_concepto_lines df =
       Ok match runs with
          | [] => empty_frame
          | _ => {| columns := columns df;
                    rows := List.map (fun g => absorb (fst g) (snd g)) runs |}
          end.
Proof.
  pose proof (repeated_NoDup PS.dia _ Hdistinct) as Hd1.
  pose proof (repeated_NoDup PS.concepto _ Hdistinct) as Hc1.
  split; [apply rows_split_in_runs|].
  intros orphans runs Hrows Horphans Hruns Hmergeable.
  rewrite merge_present by assumption. rewrite Hrows.
  pose proof (merge_loop_app to_numeric_notna (columns df) Hd1 Hc1
                orphans (flat_map run_rows runs) []) as Happ.
  change (Z.of_nat (length (@nil Series)) - 1)%Z with (-1)%Z in Happ.
  rewrite (merge_loop_orphans to_numeric_notna (columns df) Hd1 Hc1 orphans Horphans)
    in Happ.
  rewrite Happ.
  rewrite (merge_loop_runs to_numeric_notna (columns df) Hd1 Hc1 runs [] Hruns Hmergeable).
  simpl. destruct runs; [reflexivity|].
  apply has_repeated_label_NoDup in Hdistinct. by rewrite Hdistinct.
Qed.

(** X2. On a frame with no label repeated the merger raises exactly when
    a numeric-[dia] row without [concepto] is followed, before the next
    numeric-[dia] row, by a continuation row with a text; the exception
    is [TypeError]. *)
Theorem merge_concepto_lines_raises_iff (df : DataFrame) (e : exn)
  (Hdistinct : NoDup (columns df)) :
  merge_concepto_lines df = Raise e <->
  e = TypeError
  /\ str_in PS.dia (columns df) = true
  /\ str_in PS.concepto (columns df) = true
  /\ exists pre tx conts row post,
       rows df = pre ++ tx :: conts ++ row :: post
       /\ starts_transaction tx = true
       /\ notna (series_get tx PS.concepto) = false
       /\ Forall (fun r => starts_transaction r = false) conts
       /\ starts_transaction row = false /\ has_text row = true.
Proof.
  pose proof (repeated_NoDup PS.dia _ Hdistinct) as Hd1.
  pose proof (repeated_NoDup PS.concepto _ Hdistinct) as Hc1.
  pose proof (proj2 (has_repeated_label_NoDup _) Hdistinct) as Hrep.
  split.
  - intros Hrun.
    destruct (str_in PS.dia (columns df)) eqn:Hd;
      [|unfold PS.merge_concepto_lines in Hrun; rewrite Hd in Hrun; discriminate].
    destruct (str_in PS.concepto (columns df)) eqn:Hc;
      [|unfold PS.merge_concepto_lines in Hrun; rewrite Hd, Hc in Hrun; discriminate].
    rewrite merge_present, Hrep in Hrun by assumption.
    destruct (merge_loop (columns df) (rows df) [] (-1)) as [processed|e'] eqn:Hloop.
    { simpl in Hrun. by destruct processed. }
    simpl in Hrun. injection Hrun as <-.
    apply (merge_loop_raise_inv to_numeric_notna (columns df) Hd1 Hc1 (rows df) [])
      in Hloop as [-> [(tx & ? & ? & ? & Hlast & _) | Hex]]; [discriminate Hlast|].
    by repeat split.
  - intros (-> & Hd & Hc & pre & tx & conts & row & post & Hrows & Htx & Hna & Hconts & Hrow & Htext).
    rewrite merge_present, Hrows by assumption.
    pose proof (merge_loop_app to_numeric_notna (columns df) Hd1 Hc1
                  pre (tx :: conts ++ row :: post) []) as Happ.
    change (Z.of_nat (length (@nil Series)) - 1)%Z with (-1)%Z in Happ.
    destruct (merge_loop (columns df) pre [] (-1)) as [processed|e'] eqn:Hpre.
    + rewrite Happ.
      rewrite (merge_loop_new_transaction to_numeric_notna (columns df) Hd1 Hc1)
        by assumption.
      by rewrite (merge_loop_missing_concepto to_numeric_notna (columns df) Hd1 Hc1).
    + rewrite Happ.
      apply (merge_loop_raise_inv to_numeric_notna (columns df) Hd1 Hc1 pre [])
        in Hpre as [-> _]. reflexivity.
Qed.

(** X3. Merging a merged frame changes nothing. *)
Theorem merge_concepto_lines_idempotent (df out : DataFrame) :
  merge_concepto_lines df = Ok out -> merge_concepto_lines out = Ok out.
Proof.
  intros Hrun.
  destruct (str_in PS.dia (columns df)) eqn:Hd;
    [|unfold PS.merge_concepto_lines in Hrun; rewrite Hd in Hrun;
      injection Hrun as <-; unfold PS.merge_concepto_lines; by rewrite Hd].
  destruct (str_in PS.concepto (columns df)) eqn:Hc;
    [|unfold PS.merge_concepto_lines in Hrun; rewrite Hd, Hc in Hrun;
      injection Hrun as <-; unfold PS.merge_concepto_lines; by rewrite Hd, Hc].
  rewrite merge_present in Hrun by assumption.
  destruct (merge_loop (columns df) (rows df) [] (-1)) as [processed|] eqn:Hloop;
    [|discriminate].
  simpl in Hrun.
  destruct processed as [|o processed]; [by injection Hrun as <-|].
  destruct (has_repeated_label (columns df)) eqn:Hrep; [discriminate|].
  injection Hrun as <-.
  rewrite merge_present by assumption. simpl rows. simpl columns. rewrite Hrep.
  apply has_repeated_label_NoDup in Hrep.
  apply merge_loop_frame with (creators := []) in Hloop; [|constructor].
  simpl in Hloop.
  rewrite (merge_loop_all_new to_numeric_notna (columns df)
             (repeated_NoDup _ _ Hrep) (repeated_NoDup _ _ Hrep)); [reflexivity|].
  apply Forall_forall. intros r Hr.
  apply list_elem_of_lookup in Hr as [i Hi].
  destruct (Forall2_lookup_l _ _ _ _ _ Hloop Hi) as (c & Hci & Hrc).
  apply list_elem_of_lookup_2, list_elem_of_In, filter_In in Hci as [_ Hstart].
  by rewrite (starts_transaction_frame _ _ _ Hrc).
Qed.

End MergeRuns.

(** * The two loops over the files *)

Lemma union_labels_NoDup ls : forall acc,
  NoDup acc -> NoDup (union_labels acc ls).
Proof.
  induction ls as [|l ls IH]; intros acc Hacc; [exact Hacc|].
  simpl. destruct (str_in l acc) eqn:Hin; [by apply IH|].
  apply IH. apply NoDup_app. split; [assumption|].
  split; [|apply NoDup_singleton].
  intros x Hx Hl. apply list_elem_of_singleton in Hl. subst x.
  apply list_elem_of_In, str_in_spec in Hx. congruence.
Qed.

Lemma fold_union_labels_NoDup lss : forall acc,
  NoDup acc -> NoDup (fold_left union_labels lss acc).
Proof.
  induction lss as [|ls lss IH]; intros acc Hacc; [exact Hacc|].
  simpl. by apply IH, union_labels_NoDup.
Qed.

Lemma pd_concat_distinct tables :
  Forall (fun t => NoDup (labels t)) tables -> pd_concat tables = Ok (concat tables).
Proof.
  intros Hall. unfold pd_concat.
  assert (forallb (fun t => negb (has_repeated_label (labels t))) tables = true) as ->;
    [|by rewrite orb_true_r].
  apply forallb_forall. intros t Ht.
  rewrite Forall_forall in Hall. apply list_elem_of_In, Hall in Ht.
  apply has_repeated_label_NoDup in Ht. by rewrite Ht.
Qed.

(** Tables with distinct labels give a frame with distinct labels. *)
Lemma concat_columns_NoDup tables :
  Forall (fun t => NoDup (labels t)) tables -> NoDup (columns (concat tables)).
Proof.
  intros Hall. unfold concat, columns.
  destruct (same_labels tables).
  - destruct Hall; [constructor | assumption].
  - apply fold_union_labels_NoDup. constructor.
Qed.

Section MainLoops.

Variable nfkd : pystr -> pystr.
Variable to_numeric_notna : pystr -> bool.

Local Abbreviation find_transaction_tables := (PS.find_transaction_tables nfkd).
Local Abbreviation merge_concepto_lines := (PS.merge_concepto_lines to_numeric_notna).
Local Abbreviation starts_transaction := (starts_transaction to_numeric_notna).

Lemma debug_scan_pages pages : forall k s e,
  Debug.scan_pages nfkd pages k s e = PS.scan_pages nfkd pages k s e.
Proof.
  induction pages as [|page rest IH]; intros k s e; [reflexivity|].
  destruct page as [text|err]; [|reflexivity].
  cbn [Debug.scan_pages PS.scan_pages bind]. apply IH.
Qed.

Lemma debug_collect_tables tables : forall acc,
  Debug.collect_tables nfkd tables acc = PS.collect_tables nfkd tables acc.
Proof.
  induction tables as [|df rest IH]; intros acc; [reflexivity|].
  cbn [Debug.collect_tables PS.collect_tables].
  change (Debug.rebase nfkd df) with (PS.rebase nfkd df).
  destruct (df_empty df); [apply IH|].
  destruct (PS.rebase nfkd df); apply IH.
Qed.

(** X4. [find_transaction_tables] of debug.py returns the tables that the one
    of process_statements.py returns, for every document. *)
Theorem debug_find_transaction_tables (pdf : PS.Pdf) :
  Debug.find_transaction_tables nfkd pdf = find_transaction_tables pdf.
Proof.
  unfold Debug.find_transaction_tables, PS.find_transaction_tables,
    Debug.page_range, PS.page_range.
  destruct (PS.fitz_open pdf) as [pages|]; [|reflexivity].
  cbn [bind]. rewrite debug_scan_pages.
  destruct (PS.scan_pages nfkd pages 1 None None) as [r|]; [|reflexivity].
  change (Debug.valid_range r) with (PS.valid_range r).
  destruct (PS.valid_range r) as [[a b]|]; [|reflexivity].
  destruct (PS.camelot_read_pdf pdf a b); [|reflexivity].
  apply debug_collect_tables.
Qed.

Lemma process_files_cons rules pdf rest sheets :
  yields_tables nfkd pdf = true ->
  PS.process_files nfkd to_numeric_notna rules (pdf :: rest) sheets =
  let* pdf_df := pd_concat (find_transaction_tables pdf) in
  let* cleaned_df := merge_concepto_lines pdf_df in
  let* cleaned_df :=
    PS.apply_to_concepto (fun c => PS.apply_rules nfkd c rules) cleaned_df in
  PS.process_files nfkd to_numeric_notna rules rest (sheets ++ [cleaned_df]).
Proof.
  unfold yields_tables. cbn [PS.process_files].
  by destruct (find_transaction_tables pdf).
Qed.

(** X7. The run of process_statements.py stops with [KeyError] at a file
    whose tables have distinct labels each and whose merged frame has no
    [concepto] column: a frame without that label, which the merger
    returns as it is, or a frame with both labels but no numeric [dia],
    for which the merger returns the frame without columns. *)
Theorem process_files_key_error rules (pdf : PS.Pdf) rest sheets
  (Hy : yields_tables nfkd pdf = true)
  (Hdistinct : Forall (fun t => NoDup (labels t)) (find_transaction_tables pdf))
  (Hframe :
     ~ In PS.concepto (columns (concat (find_transaction_tables pdf)))
     \/ (In PS.dia (columns (concat (find_transaction_tables pdf)))
         /\ Forall (fun r => starts_transaction r = false)
              (rows (concat (find_transaction_tables pdf))))) :
  (exists sheet,
     merge_concepto_lines (concat (find_transaction_tables pdf)) = Ok sheet
     /\ ~ In PS.concepto (columns sheet))
  /\ PS.process_files nfkd to_numeric_notna rules (pdf :: rest) sheets = Raise KeyError.
Proof.
  rewrite process_files_cons, (pd_concat_distinct _ Hdistinct) by assumption.
  cbn [bind].
  apply concat_columns_NoDup in Hdistinct.
  set (frame := concat (find_transaction_tables pdf)) in *.
  assert (Hmerge : exists sheet, merge_concepto_lines frame = Ok sheet
                                 /\ ~ In PS.concepto (columns sheet)).
  { destruct (str_in PS.concepto (columns frame)) eqn:Hc.
    - destruct Hframe as [Hno | [Hd Hrows]].
      + apply str_in_spec in Hc. contradiction.
      + exists empty_frame. split; [|intros []].
        apply str_in_spec in Hd.
        rewrite merge_present by assumption.
        by rewrite (merge_loop_orphans to_numeric_notna (columns frame)
                      (repeated_NoDup _ _ Hdistinct) (repeated_NoDup _ _ Hdistinct)
                      _ Hrows).
    - exists frame. split.
      + apply merge_pass_through. right. intros Hin.
        apply str_in_spec in Hin. congruence.
      + intros Hin. apply str_in_spec in Hin. congruence. }
  split; [exact Hmerge|].
  destruct Hmerge as (sheet & Hmerge & Hno).
  rewrite Hmerge. cbn [bind].
  unfold PS.apply_to_concepto.
  destruct (str_in PS.concepto (columns sheet)) eqn:Hc; [|reflexivity].
  apply str_in_spec in Hc. contradiction.
Qed.

End MainLoops.

(** * What reaches Camelot and what comes back *)

Section Extraction.

Variable nfkd : pystr -> pystr.

Local Abbreviation find_transaction_tables := (PS.find_transaction_tables nfkd).
Local Abbreviation is_header_row := (PS.is_header_row nfkd).

Lemma scan_pages_ok_inv pages : forall k s e r,
  PS.scan_pages nfkd pages k s e = Ok r ->
  exists texts, pages = List.map Ok texts.
Proof.
  induction pages as [|page rest IH]; intros k s e r Hscan.
  - by exists [].
  - destruct page as [text|err]; [|discriminate].
    rewrite scan_pages_cons_ok in Hscan.
    apply IH in Hscan as [texts ->]. by exists (text :: texts).
Qed.

(** X8. Camelot is only asked for a page range that lies inside the document:
    when the scan ends with a valid range, every page was read, and
    [1 <= start <= end <= page count]; the tables of the document are then
    those that the table loop keeps from Camelot's answer for that
    range. *)
Theorem camelot_range_within_document (pdf : PS.Pdf) r a b
  (Hrange : PS.page_range nfkd pdf = Ok r)
  (Hvalid : PS.valid_range r = Some (a, b)) :
  exists texts,
    PS.fitz_open pdf = Ok (List.map Ok texts)
    /\ (1 <= a <= b)%Z /\ (b <= Z.of_nat (length texts))%Z
    /\ find_transaction_tables pdf =
       match PS.camelot_read_pdf pdf a b with
       | Raise _ => []
       | Ok tables => PS.collect_tables nfkd tables []
       end.
Proof.
  unfold PS.page_range in Hrange.
  destruct (PS.fitz_open pdf) as [pages|] eqn:Hopen; [|discriminate].
  cbn [bind] in Hrange.
  destruct (scan_pages_ok_inv _ _ _ _ _ Hrange) as [texts ->].
  exists texts. split; [reflexivity|].
  destruct (scan_pages_spec nfkd texts 1 None None) as (s' & e' & Hscan & Hs & He).
  rewrite Hscan in Hrange. injection Hrange as <-.
  destruct s' as [s0|]; [|discriminate].
  destruct e' as [e0|]; [|discriminate].
  simpl in Hvalid.
  destruct (Z.ltb_spec e0 s0); [discriminate|]. injection Hvalid as -> ->.
  destruct Hs as (i & t & -> & Hi & _).
  destruct He as [[Hnone _] | (p & [= <-] & j & t' & -> & Hj & _)]; [discriminate|].
  apply lookup_lt_Some in Hj.
  split; [lia|]. split; [lia|].
  unfold PS.find_transaction_tables, PS.page_range.
  rewrite Hopen. cbn [bind]. rewrite Hscan. simpl.
  destruct (Z.ltb_spec (1 + Z.of_nat j) (1 + Z.of_nat i)); [lia | reflexivity].
Qed.

(** The table loop keeps, in order, the re-based frame of every non-empty
    raw table that has a header. *)
Lemma collect_tables_spec tables : forall acc,
  PS.collect_tables nfkd tables acc =
  acc ++ omap (fun df => if df_empty df then None else PS.rebase nfkd df) tables.
Proof.
  induction tables as [|df rest IH]; intros acc; simpl.
  - by rewrite app_nil_r.
  - destruct (df_empty df); [apply IH|].
    destruct (PS.rebase nfkd df) as [t|]; [|apply IH].
    rewrite IH, <- app_assoc. reflexivity.
Qed.

Lemma length_omap_le {A B} (f : A -> option B) l : (length (omap f l) <= length l)%nat.
Proof.
  induction l as [|a l IH]; [reflexivity|].
  change (omap f (a :: l))
    with (match f a with Some y => y :: omap f l | None => omap f l end).
  destruct (f a); simpl; lia.
Qed.

(** X9. Every table that [find_transaction_tables] returns comes from one raw
    table of Camelot's answer: its labels are the normalized cells of a
    header row among the first five rows of that raw table and its rows
    are the rows below that header, so it has fewer rows than the raw
    table and as many labels as the header row has cells.  No more tables
    are returned than Camelot delivered. *)
Theorem find_transaction_tables_provenance (pdf : PS.Pdf) (t : Table)
  (Hin : In t (find_transaction_tables pdf)) :
  exists a b tables df h row,
    PS.camelot_read_pdf pdf a b = Ok tables
    /\ In df tables
    /\ (h < 5)%nat /\ df !! h = Some row /\ is_header_row row = true
    /\ labels t = List.map (PS.normalize_text nfkd) row
    /\ cells t = drop (S h) df
    /\ (length (cells t) < length df)%nat
    /\ length (labels t) = length row
    /\ (length (find_transaction_tables pdf) <= length tables)%nat.
Proof.
  unfold PS.find_transaction_tables in *.
  destruct (PS.page_range nfkd pdf) as [r|]; [|destruct Hin].
  destruct (PS.valid_range r) as [[a b]|]; [|destruct Hin].
  destruct (PS.camelot_read_pdf pdf a b) as [tables|] eqn:Hc; [|destruct Hin].
  rewrite collect_tables_spec in *. simpl in *.
  apply list_elem_of_In, list_elem_of_omap in Hin as (df & Hdf & Ht).
  destruct (df_empty df); [discriminate|].
  destruct (header_found_at_row_spec nfkd df)
    as [[Hh _] | (h & row & Hh & Hlt & Hrow & Hq & _)].
  { unfold PS.rebase in Ht. rewrite Hh in Ht. discriminate. }
  unfold PS.rebase in Ht. rewrite Hh in Ht.
  destruct (Z.eqb_spec (Z.of_nat h) (-1)); [lia|].
  rewrite Nat2Z.id, (nth_lookup_Some _ _ _ _ Hrow) in Ht.
  replace (Z.to_nat (Z.of_nat h + 1)) with (S h) in Ht by lia.
  injection Ht as <-. simpl.
  exists a, b, tables, df, h, row.
  apply lookup_lt_Some in Hrow as Hlen.
  repeat split; try assumption.
  - by apply list_elem_of_In.
  - rewrite length_drop. lia.
  - apply length_map.
  - apply length_omap_le.
Qed.

End Extraction.

(** * Joined text *)

Section JoinedText.

Lemma join_prefix sep (x y : list pystr) :
  exists rest, join sep (x ++ y) = join sep x ++ rest.
Proof.
  induction x as [|w x IH]; [by eexists|].
  destruct x as [|w2 x'].
  - destruct y as [|v y'].
    + exists []. simpl. by rewrite app_nil_r.
    + by exists (sep ++ join sep (v :: y')).
  - change (join sep ((w :: w2 :: x') ++ y))
      with (w ++ sep ++ join sep ((w2 :: x') ++ y)).
    destruct IH as [rest ->]. exists rest.
    change (join sep (w :: w2 :: x')) with (w ++ sep ++ join sep (w2 :: x')).
    by rewrite <- !app_assoc.
Qed.

Lemma join_suffix sep (x y : list pystr) :
  exists front, join sep (x ++ y) = front ++ join sep y.
Proof.
  induction x as [|w x IH]; [by exists []|].
  destruct IH as [front Hfront].
  destruct (x ++ y) as [|v rest] eqn:Hxy.
  - apply app_eq_nil in Hxy as [-> ->]. exists w. simpl. by rewrite app_nil_r.
  - change (join sep ((w :: x) ++ y)) with (join sep (w :: (x ++ y))).
    rewrite Hxy.
    change (join sep (w :: v :: rest)) with (w ++ sep ++ join sep (v :: rest)).
    rewrite Hfront. exists (w ++ sep ++ front). by rewrite <- !app_assoc.
Qed.

Lemma substring_join_middle sep needle (before middle after : list pystr) :
  substring needle (join sep middle) ->
  substring needle (join sep (before ++ middle ++ after)).
Proof.
  intros (b & a & Hm).
  destruct (join_suffix sep before (middle ++ after)) as [front ->].
  destruct (join_prefix sep middle after) as [rest ->].
  rewrite Hm. exists (front ++ b), (a ++ rest). by rewrite <- !app_assoc.
Qed.

Lemma split_ws_from_app_space s : forall cur t,
  split_ws_from cur (s ++ space ++ t) = split_ws_from cur s ++ split_ws t.
Proof.
  induction s as [|c s IH]; intros cur t.
  - change ([] ++ space ++ t) with (space ++ t).
    rewrite split_ws_from_space. by destruct cur.
  - change ((c :: s) ++ space ++ t) with (c :: (s ++ space ++ t)).
    cbn [split_ws_from]. destruct (isspace c).
    + destruct cur; rewrite IH; reflexivity.
    + apply IH.
Qed.

Lemma lower_app a b : lower (a ++ b) = lower a ++ lower b.
Proof. apply map_app. Qed.

End JoinedText.

(** * Rules on merged text, headers with more cells, blank keyword cells *)

Section MatchingFacts.

Variable nfkd : pystr -> pystr.
Hypothesis nfkd_ascii : forall s, Forall (fun c => c < 128) s -> nfkd s = s.

Local Abbreviation normalize_text := (PS.normalize_text nfkd).

(** On ASCII text, the normalized form of two texts joined by a space
    begins with the normalized form of the first. *)
Lemma normalize_text_append a b :
  ascii_str a = true -> ascii_str b = true ->
  exists rest,
    normalize_text (PyStr (a ++ space ++ b)) = normalize_text (PyStr a) ++ rest.
Proof.
  intros Ha Hb.
  assert (Hab : ascii_str (a ++ space ++ b) = true).
  { unfold ascii_str in *. rewrite !forallb_app, Ha, Hb. reflexivity. }
  apply ascii_str_spec in Ha, Hb, Hab.
  rewrite !(normalize_text_of_ascii nfkd nfkd_ascii) by assumption.
  rewrite !lower_app. change (lower space) with space.
  unfold split_ws. rewrite split_ws_from_app_space.
  apply join_prefix.
Qed.

(** X10. A rule that matches the text of a transaction still matches after a
    continuation text is appended to it with a space (for ASCII texts):
    merging lines never loses a match. *)
Theorem append_keeps_rule_match (a b : pystr) (r : PS.Rule)
  (Ha : ascii_str a = true) (Hb : ascii_str b = true)
  (Hmatch : rule_matches nfkd (PyStr a) r) :
  rule_matches nfkd (PyStr (a ++ space ++ b)) r
  /\ forall tx row,
       series_get tx PS.concepto = PyStr a ->
       py_str (series_get row PS.concepto) = b ->
       rule_matches nfkd (series_get (append_text tx row) PS.concepto) r.
Proof.
  assert (Hab : rule_matches nfkd (PyStr (a ++ space ++ b)) r).
  { intros kw Hkw. destruct (Hmatch kw Hkw) as (before & after & Heq).
    destruct (normalize_text_append a b Ha Hb) as [rest ->].
    rewrite Heq. exists before, (after ++ rest). by rewrite <- !app_assoc. }
  split; [exact Hab|].
  intros tx row Htx Hrow. unfold append_text. rewrite Htx, Hrow.
  unfold series_get, series_set. rewrite lookup_insert_eq. exact Hab.
Qed.

(** X11. A row that qualifies as header still qualifies with more cells
    before and after it: extra columns never hide a header. *)
Theorem is_header_row_more_cells (row before after : list pyval)
  (Hrow : PS.is_header_row nfkd row = true) :
  PS.is_header_row nfkd (before ++ row ++ after) = true.
Proof.
  rewrite is_header_row_spec in *. intros lbl Hlbl.
  unfold haystack. rewrite !map_app.
  apply substring_join_middle, (Hrow lbl Hlbl).
Qed.

(** X12. A rule whose Keywords cell is missing has the one keyword "nan": it
    matches exactly the conceptos whose normalized text contains "nan". *)
Theorem missing_keywords_match_nan (concepto : pyval) (r : PS.Rule)
  (Hkw : PS.Keywords r = PyNaN) :
  rule_keywords r = [u "nan"]
  /\ (rule_matches nfkd concepto r <->
      substring (u "nan") (normalize_text concepto)).
Proof.
  assert (Hks : rule_keywords r = [u "nan"]) by (unfold rule_keywords; by rewrite Hkw).
  assert (Hnan : normalize_text (PyStr (u "nan")) = u "nan").
  { rewrite (normalize_text_of_ascii nfkd nfkd_ascii); [reflexivity|].
    by apply ascii_str_spec. }
  split; [exact Hks|]. unfold rule_matches. rewrite Hks. split.
  - intros H. rewrite <- Hnan. apply H. by left.
  - intros H kw [<- | []]. by rewrite Hnan.
Qed.

End MatchingFacts.

(** * Concrete runs of the further properties *)

(** The five rows of [statement_with_orphan] merge to two transactions. *)
Lemma merge_concepto_lines_runs_witness :
  NoDup (columns statement_with_orphan)
  /\ str_in PS.dia (columns statement_with_orphan) = true
  /\ str_in PS.concepto (columns statement_with_orphan) = true
  /\ PS.merge_concepto_lines digits_only statement_with_orphan
     = Ok {| columns := [u "dia"; u "concepto"];
             rows := [ absorb row_pago [row_proveedor; row_blank];
                       absorb row_deposito [] ] |}
  /\ series_get (absorb row_pago [row_proveedor; row_blank]) PS.concepto
     = PyStr (u "PAGO A PROVEEDOR X").
Proof.
  split; [apply has_repeated_label_NoDup; reflexivity|].
  split; [reflexivity|]. split; [reflexivity|]. split; [|reflexivity].
  refine (proj2 (merge_concepto_lines_runs digits_only statement_with_orphan
                   (proj1 (has_repeated_label_NoDup (columns statement_with_orphan))
                      eq_refl) eq_refl eq_refl)
            [row_orphan] [(row_pago, [row_proveedor; row_blank]); (row_deposito, [])]
            eq_refl _ _ _).
  - repeat constructor.
  - repeat constructor.
  - repeat constructor; by left.
Defined.

(** The frame of the two tables: its first row has a numeric [dia] and no
    [concepto], its second row continues it with a text. *)
Lemma merge_concepto_lines_raises_iff_witness :
  NoDup (columns frame_two_tables)
  /\ PS.merge_concepto_lines digits_only frame_two_tables = Raise TypeError.
Proof.
  split; [apply has_repeated_label_NoDup; reflexivity|].
  apply (proj2 (merge_concepto_lines_raises_iff digits_only frame_two_tables TypeError
                  (proj1 (has_repeated_label_NoDup (columns frame_two_tables))
                     eq_refl))).
  split; [reflexivity|]. split; [reflexivity|]. split; [reflexivity|].
  eexists [], _, [], _, []. split; [reflexivity|].
  split; [reflexivity|]. split; [reflexivity|]. split; [constructor|].
  split; reflexivity.
Defined.

(** The merged frame of the specification's three rows merges to itself. *)
Lemma merge_concepto_lines_idempotent_witness :
  PS.merge_concepto_lines digits_only statement_rows = Ok statement_merged
  /\ PS.merge_concepto_lines digits_only statement_merged = Ok statement_merged.
Proof.
  split; [exact merge_three_rows|].
  exact (merge_concepto_lines_idempotent digits_only statement_rows statement_merged
           merge_three_rows).
Defined.

(** The document whose header is one cell stops process_statements.py. *)
Lemma process_files_key_error_witness :
  yields_tables nfkd_latin statement_one_cell = true
  /\ Forall (fun t => NoDup (labels t))
       (PS.find_transaction_tables nfkd_latin statement_one_cell)
  /\ ~ In PS.concepto
       (columns (concat (PS.find_transaction_tables nfkd_latin statement_one_cell)))
  /\ PS.process_files nfkd_latin digits_only rulebook
       [statement_one_cell; statement_one_table] []
     = Raise KeyError.
Proof.
  assert (Hdistinct : Forall (fun t => NoDup (labels t))
            (PS.find_transaction_tables nfkd_latin statement_one_cell)).
  { change (PS.find_transaction_tables nfkd_latin statement_one_cell)
      with [one_cell_table].
    constructor; [apply has_repeated_label_NoDup; reflexivity | constructor]. }
  assert (Hno : ~ In PS.concepto
            (columns (concat (PS.find_transaction_tables nfkd_latin statement_one_cell)))).
  { intros [Heq | []]. discriminate Heq. }
  split; [reflexivity|]. split; [exact Hdistinct|]. split; [exact Hno|].
  exact (proj2 (process_files_key_error nfkd_latin digits_only rulebook
                  statement_one_cell [statement_one_table] [] eq_refl Hdistinct
                  (or_introl Hno))).
Defined.

Lemma camelot_range_within_document_witness :
  PS.page_range nfkd_latin (readable six_pages (fun _ _ => Ok [])) = Ok (Some 3%Z, Some 5%Z)
  /\ exists texts,
       PS.fitz_open (readable six_pages (fun _ _ => Ok [])) = Ok (List.map Ok texts)
       /\ (1 <= 3 <= 5)%Z /\ (5 <= Z.of_nat (length texts))%Z
       /\ PS.find_transaction_tables nfkd_latin (readable six_pages (fun _ _ => Ok []))
          = PS.collect_tables nfkd_latin [] [].
Proof.
  assert (Hr : PS.page_range nfkd_latin (readable six_pages (fun _ _ => Ok []))
               = Ok (Some 3%Z, Some 5%Z)) by (by vm_compute).
  split; [exact Hr|].
  exact (camelot_range_within_document nfkd_latin
           (readable six_pages (fun _ _ => Ok [])) _ 3%Z 5%Z Hr eq_refl).
Defined.

Lemma find_transaction_tables_provenance_witness :
  PS.find_transaction_tables nfkd_latin statement_one_table
  = [ {| labels := [u "dia"; u "concepto"; u "cargos"; u "abonos"; u "saldo"];
         cells := drop 3 header_in_third_row |} ]
  /\ exists a b tables df h row,
       PS.camelot_read_pdf statement_one_table a b = Ok tables
       /\ In df tables
       /\ (h < 5)%nat /\ df !! h = Some row /\ PS.is_header_row nfkd_latin row = true
       /\ [u "dia"; u "concepto"; u "cargos"; u "abonos"; u "saldo"]
          = List.map (PS.normalize_text nfkd_latin) row
       /\ drop 3 header_in_third_row = drop (S h) df
       /\ (length (drop 3 header_in_third_row) < length df)%nat
       /\ length [u "dia"; u "concepto"; u "cargos"; u "abonos"; u "saldo"] = length row
       /\ (length (PS.find_transaction_tables nfkd_latin statement_one_table)
           <= length tables)%nat.
Proof.
  split; [by vm_compute|].
  exact (find_transaction_tables_provenance nfkd_latin statement_one_table
           {| labels := [u "dia"; u "concepto"; u "cargos"; u "abonos"; u "saldo"];
              cells := drop 3 header_in_third_row |}
           (or_introl eq_refl)).
Defined.

Lemma rule_pago_matches :
  rule_matches nfkd_latin (PyStr (u "PAGO A"))
    {| PS.Priority := 2; PS.Keywords := PyStr (u "pago");
       PS.Output_Template := PyStr (u "Pago Generico") |}.
Proof. apply all_keywords_in_matches. by vm_compute. Qed.

Lemma append_keeps_rule_match_witness :
  ascii_str (u "PAGO A") = true /\ ascii_str (u "PROVEEDOR X") = true
  /\ rule_matches nfkd_latin (PyStr (u "PAGO A" ++ space ++ u "PROVEEDOR X"))
       {| PS.Priority := 2; PS.Keywords := PyStr (u "pago");
          PS.Output_Template := PyStr (u "Pago Generico") |}.
Proof.
  split; [reflexivity|]. split; [reflexivity|].
  exact (proj1 (append_keeps_rule_match nfkd_latin nfkd_latin_ascii
                  (u "PAGO A") (u "PROVEEDOR X") _ eq_refl eq_refl rule_pago_matches)).
Defined.

Lemma is_header_row_more_cells_witness :
  PS.is_header_row nfkd_latin
    [PyStr (u "Dia"); PyStr (u "Concepto"); PyStr (u "Cargos");
     PyStr (u "Abonos"); PyStr (u "Saldo")] = true
  /\ PS.is_header_row nfkd_latin
       ([PyStr (u "Fecha"); PyNaN]
        ++ [PyStr (u "Dia"); PyStr (u "Concepto"); PyStr (u "Cargos");
            PyStr (u "Abonos"); PyStr (u "Saldo")]
        ++ [PyStr (u "Referencia")]) = true.
Proof.
  split; [reflexivity|].
  exact (is_header_row_more_cells nfkd_latin
           [PyStr (u "Dia"); PyStr (u "Concepto"); PyStr (u "Cargos");
            PyStr (u "Abonos"); PyStr (u "Saldo")]
           [PyStr (u "Fecha"); PyNaN] [PyStr (u "Referencia")] eq_refl).
Defined.

(** A blank Keywords cell matches "FINANCIERA" and not "DEPOSITO". *)
Lemma missing_keywords_match_nan_witness :
  PS.Keywords rule_blank_keywords = PyNaN
  /\ rule_matches nfkd_latin (PyStr (u "FINANCIERA")) rule_blank_keywords
  /\ PS.apply_rules nfkd_latin (PyStr (u "FINANCIERA")) [rule_blank_keywords]
     = PyStr (u "Sin clasificar")
  /\ PS.apply_rules nfkd_latin (PyStr (u "DEPOSITO")) [rule_blank_keywords]
     = PyStr (u "DEPOSITO").
Proof.
  split; [reflexivity|]. split; [|split; by vm_compute].
  apply (proj2 (missing_keywords_match_nan nfkd_latin nfkd_latin_ascii
                  (PyStr (u "FINANCIERA")) rule_blank_keywords eq_refl)).
  exists (u "fi"), (u "ciera"). reflexivity.
Defined.
